(** * Databricks Explorer MCP: the [search] / [fetch] tool surface

    A shallow embedding of [src/server.py]: the SQL classifier [_is_sql],
    the statement poll loop [_run_sql], and the two tools [search] and
    [fetch], together with the properties the specification states about
    them.

    Modelling conventions.
    - A Python [str] is a [string]; a character is a code point below 256
      (ASCII and Latin-1), on which [lower], [lstrip] and [strip] below are
      the ones of Python.  The only text outside that range in the source
      is the ellipsis of the SQL preview, kept as the constant [ellipsis].
    - The remote workspace is a record [world]: every HTTP call of the
      source is a field that returns a value or raises.  Status documents
      are typed after the interface the source consumes; optional keys are
      [option]s.
    - Python exceptions are values of [exn]; code that can raise lives in
      the monad [outcome], and the search loop, which appends to a list
      that survives an exception, in the state-and-error monad [M]. *)

From Stdlib Require Import String Ascii List ZArith Bool Arith Lia.
From Stdlib Require Import DecimalString.
Import ListNotations.
Open Scope list_scope.
Open Scope string_scope.

(** ** Python strings *)

Module PyStr.

(** [str.isspace] on one character: TAB..CR, FS..US, space, NEL, NBSP. *)
Definition is_space (c : ascii) : bool :=
  let n := nat_of_ascii c in
  (((9 <=? n) && (n <=? 13)) || ((28 <=? n) && (n <=? 32))
   || (n =? 133) || (n =? 160))%nat.

(** [str.lower] on one character: A..Z, and the Latin-1 capitals
    U+00C0..U+00DE without the multiplication sign U+00D7. *)
Definition lower_char (c : ascii) : ascii :=
  let n := nat_of_ascii c in
  if (((65 <=? n) && (n <=? 90))
      || ((192 <=? n) && (n <=? 222) && negb (n =? 215)))%nat
  then ascii_of_nat (n + 32) else c.

Fixpoint lower (s : string) : string :=
  match s with
  | EmptyString => EmptyString
  | String c s' => String (lower_char c) (lower s')
  end.

Fixpoint lstrip (s : string) : string :=
  match s with
  | EmptyString => EmptyString
  | String c s' => if is_space c then lstrip s' else s
  end.

Fixpoint rstrip (s : string) : string :=
  match s with
  | EmptyString => EmptyString
  | String c s' =>
      match rstrip s' with
      | EmptyString => if is_space c then EmptyString else String c EmptyString
      | r => String c r
      end
  end.

Definition strip (s : string) : string := rstrip (lstrip s).

(** [s.startswith(p)] *)
Fixpoint startswith (s p : string) : bool :=
  match p, s with
  | EmptyString, _ => true
  | String _ _, EmptyString => false
  | String a p', String b s' => Ascii.eqb a b && startswith s' p'
  end.

(** [s.startswith((p1, ..., pn))] *)
Definition startswith_any (s : string) (ps : list string) : bool :=
  existsb (startswith s) ps.

(** [needle in hay] *)
Fixpoint contains (needle hay : string) : bool :=
  startswith hay needle
  || match hay with
     | EmptyString => false
     | String _ hay' => contains needle hay'
     end.

(** [s[n:]] and [s[:n]] for [0 <= n] *)
Fixpoint slice_from (n : nat) (s : string) : string :=
  match n, s with
  | O, _ => s
  | S _, EmptyString => EmptyString
  | S n', String _ s' => slice_from n' s'
  end.

Fixpoint slice_to (n : nat) (s : string) : string :=
  match n, s with
  | O, _ => EmptyString
  | S _, EmptyString => EmptyString
  | S n', String c s' => String c (slice_to n' s')
  end.

(** [s.partition(sep)] when [sep] occurs: the text before and after the
    first occurrence of a non-empty [sep]. *)
Fixpoint cut (sep s : string) : option (string * string) :=
  if startswith s sep then Some (EmptyString, slice_from (String.length sep) s)
  else match s with
       | EmptyString => None
       | String c s' =>
           match cut sep s' with
           | Some (a, b) => Some (String c a, b)
           | None => None
           end
       end.

(** [s.split(sep, maxsplit)] for a non-empty [sep] *)
Fixpoint split (sep : string) (maxsplit : nat) (s : string) : list string :=
  match maxsplit with
  | O => [s]
  | S k =>
      match cut sep s with
      | Some (a, b) => a :: split sep k b
      | None => [s]
      end
  end.

(** [str(n)] for an [int] *)
Definition str_int (z : Z) : string := NilZero.string_of_int (Z.to_int z).

End PyStr.
Import PyStr.

(** ** Exceptions and the two monads *)

(** The exceptions the modelled code can raise.  All of them are subclasses
    of Python's [Exception]. *)
Inductive exn : Type :=
| RuntimeError (msg : string)
| TimeoutError (msg : string)
| ValueError (msg : string)
| IndexError (msg : string)
| KeyError (key : string)
| RequestException (msg : string).
  (* whatever [requests.get] / [requests.post], [raise_for_status] or
     [r.json()] raise *)

(** [str(exc)]; a [KeyError] prints the [repr] of its key. *)
Definition str_exn (e : exn) : string :=
  match e with
  | RuntimeError m | TimeoutError m | ValueError m | IndexError m
  | RequestException m => m
  | KeyError k => "'" ++ k ++ "'"
  end.

Definition is_ValueError (e : exn) : bool :=
  match e with ValueError _ => true | _ => false end.

Inductive outcome (A : Type) : Type :=
| Ret (a : A)
| Raise (e : exn).
Arguments Ret {A} a.
Arguments Raise {A} e.

Definition bind {A B} (m : outcome A) (k : A -> outcome B) : outcome B :=
  match m with
  | Ret a => k a
  | Raise e => Raise e
  end.

Declare Scope py_scope.
Delimit Scope py_scope with py.
Notation "x <- m ;; k" := (bind m (fun x => k))
  (at level 61, m at next level, right associativity) : py_scope.
Notation "' pat <- m ;; k" := (bind m (fun x => match x with pat => k end))
  (at level 61, pat pattern, m at next level, right associativity) : py_scope.

(** [try: body  except cls as exc: handler(exc)] *)
Definition try_except {A} (body : outcome A) (cls : exn -> bool)
    (handler : exn -> outcome A) : outcome A :=
  match body with
  | Ret a => Ret a
  | Raise e => if cls e then handler e else Raise e
  end.

(** [except Exception]: every constructor of [exn] is an [Exception]. *)
Definition is_Exception (e : exn) : bool :=
  match e with
  | RuntimeError _ | TimeoutError _ | ValueError _ | IndexError _
  | KeyError _ | RequestException _ => true
  end.

(** [a, b = l] and [a, b, c = l] *)
Definition unpack2 (l : list string) : outcome (string * string) :=
  match l with
  | [a; b] => Ret (a, b)
  | [] => Raise (ValueError "not enough values to unpack (expected 2, got 0)")
  | [_] => Raise (ValueError "not enough values to unpack (expected 2, got 1)")
  | _ => Raise (ValueError "too many values to unpack (expected 2)")
  end.

Definition unpack3 (l : list string) : outcome (string * string * string) :=
  match l with
  | [a; b; c] => Ret (a, b, c)
  | [] => Raise (ValueError "not enough values to unpack (expected 3, got 0)")
  | [_] => Raise (ValueError "not enough values to unpack (expected 3, got 1)")
  | [_; _] => Raise (ValueError "not enough values to unpack (expected 3, got 2)")
  | _ => Raise (ValueError "too many values to unpack (expected 3)")
  end.

(** [l[i]] *)
Definition index (l : list string) (i : nat) : outcome string :=
  match nth_error l i with
  | Some x => Ret x
  | None => Raise (IndexError "list index out of range")
  end.

(** ** Documents exchanged with the workspace *)

(** Free-form JSON, for result payloads and the extra keys of an object. *)
#[warnings="-register-all"]
Inductive json : Type :=
| JNull
| JBool (b : bool)
| JNum (z : Z)
| JStr (s : string)
| JArr (l : list json)
| JObj (l : list (string * json)).

(** Python truthiness of a decoded JSON value. *)
Definition truthy (j : json) : bool :=
  match j with
  | JNull => false
  | JBool b => b
  | JNum z => negb (z =? 0)%Z
  | JStr s => negb (s =? "")
  | JArr l => match l with [] => false | _ => true end
  | JObj l => match l with [] => false | _ => true end
  end.

(** A catalog, schema or table record: [{name, comment?, ...}]. *)
Record uc_object : Type := {
  obj_name : string;
  obj_comment : option string;
  obj_extra : list (string * json)
}.

(** The value under ["catalogs"], ["schemas"] or ["tables"], when the key
    is there. *)
Definition listing : Type := option (list uc_object).

(** [doc.get(key, [])] *)
Definition items (l : listing) : list uc_object :=
  match l with Some xs => xs | None => [] end.

(** [obj.get("comment", "")] *)
Definition comment_of (o : uc_object) : string :=
  match obj_comment o with Some c => c | None => "" end.

Record error_doc : Type := { message : option string }.
Record manifest_doc : Type := { total_row_count : option Z }.

(** A statement status: [{status: {state, error?}, manifest?, result?}]. *)
Record status_doc : Type := {
  state : string;
  error : option error_doc;
  manifest : option manifest_doc;
  result : option json
}.

(** The body of the submission POST. *)
Record payload : Type := {
  statement : string;
  p_warehouse_id : string;
  wait_timeout : string;
  on_wait_timeout : string;
  disposition : string;
  format : string
}.

(** The workspace as the code sees it.  [get_statement id k] is the answer
    to the [k]-th status poll (counted from 0) of one [_run_sql] call, for
    the statement id the submission returned ([None] when the response has
    no ["statement_id"]).  [str_status] is Python's [str] of the status
    dictionary. *)
Record world : Type := {
  WAREHOUSE_ID : string;
  list_catalogs : outcome listing;
  list_schemas : string -> outcome listing;
  list_tables : string -> string -> outcome listing;
  post_statement : payload -> outcome (option string);
  get_statement : option string -> nat -> outcome status_doc;
  str_status : status_doc -> string
}.

(** What the tools return: a result dictionary or [{"error": msg}]. *)
Inductive metadata : Type :=
| MSql (sql : string)
| MObject (o : uc_object)
| MStatus (st : status_doc).

Inductive entry : Type :=
| Result (id title text : string) (md : metadata)
| Error (msg : string).

Definition is_error (e : entry) : bool :=
  match e with Error _ => true | Result _ _ _ _ => false end.

(** ** The program *)

Open Scope py_scope.

(** *** [_run_sql]: submit, then poll *)

(** [status["status"].get("error", {}).get("message", str(status))] *)
Definition error_msg (w : world) (status : status_doc) : string :=
  match error status with
  | Some {| message := Some m |} => m
  | _ => str_status w status
  end.

(** [status.get("result")] used as a condition *)
Definition has_result (status : status_doc) : bool :=
  match result status with
  | Some r => truthy r
  | None => false
  end.

(** The loop [for _ in range(wait)], with [remaining] iterations to go and
    [attempt] polls already made; [time.sleep(1)] is the step to the next
    attempt. *)
Fixpoint poll (w : world) (st_id : option string) (remaining attempt : nat)
  : outcome status_doc :=
  match remaining with
  | O => Raise (TimeoutError "SQL timed out after wait_timeout")
  | S remaining' =>
      status <- get_statement w st_id attempt ;;
      if (state status =? "SUCCEEDED") && has_result status then Ret status
      else if state status =? "FAILED" then
        Raise (RuntimeError ("SQL execution failed: " ++ error_msg w status))
      else poll w st_id remaining' (S attempt)
  end.

(** The dictionary [payload] of [_run_sql]. *)
Definition submission (w : world) (sql : string) (wait : Z) : payload :=
  {| statement := sql;
     p_warehouse_id := WAREHOUSE_ID w;
     wait_timeout := str_int wait ++ "s";
     on_wait_timeout := "CONTINUE";
     disposition := "INLINE";
     format := "JSON_ARRAY" |}.

Definition _run_sql (w : world) (sql : string) (wait : Z) : outcome status_doc :=
  st_id <- post_statement w (submission w sql wait) ;;
  poll w st_id (Z.to_nat wait) 0.

(** The default of the parameter [wait]. *)
Definition default_wait : Z := 15.

(** *** [_is_sql] *)

Definition _is_sql (text : string) : bool :=
  let stripped := lower (lstrip text) in
  startswith_any stripped
    ["select"; "with"; "insert"; "update"; "delete"; "merge"]
  || startswith stripped "sql:".

(** *** [search] *)

(** The one character U+2026 of the preview, in its UTF-8 spelling. *)
Definition ellipsis : string := "…".

(** The stub of the SQL path. *)
Definition sql_of_query (query : string) : string :=
  if startswith (lower query) "sql:"
  then strip (slice_from (String.length "sql:") query)
  else strip query.

Definition sql_stub (sql : string) : entry :=
  Result ("query::" ++ sql) "SQL query preview"
    (if (60 <? String.length sql)%nat then slice_to 60 sql ++ ellipsis else sql)
    (MSql sql).

(** The metadata path appends to [results] as it goes, and what it has
    appended is still there when a call raises: a computation takes the
    list and returns it with its outcome. *)
Definition M (A : Type) : Type := list entry -> outcome A * list entry.

Definition mret {A} (a : A) : M A := fun rs => (Ret a, rs).

Definition mbind {A B} (m : M A) (k : A -> M B) : M B :=
  fun rs =>
    match m rs with
    | (Ret a, rs') => k a rs'
    | (Raise e, rs') => (Raise e, rs')
    end.

Definition call {A} (o : outcome A) : M A := fun rs => (o, rs).

(** [results.append(e)] *)
Definition append (e : entry) : M unit := fun rs => (Ret tt, (rs ++ [e])%list).

Definition when (b : bool) (m : M unit) : M unit := if b then m else mret tt.

Fixpoint for_each {A} (l : list A) (body : A -> M unit) : M unit :=
  match l with
  | [] => mret tt
  | x :: l' => mbind (body x) (fun _ => for_each l' body)
  end.

Declare Scope search_scope.
Delimit Scope search_scope with search.
Notation "x <- m ;; k" := (mbind m (fun x => k))
  (at level 61, m at next level, right associativity) : search_scope.
Notation "m ;;; k" := (mbind m (fun _ => k))
  (at level 61, right associativity) : search_scope.

Definition catalog_hit (cat : uc_object) : entry :=
  Result ("catalog::" ++ obj_name cat) ("Catalog: " ++ obj_name cat)
    (comment_of cat) (MObject cat).

Definition schema_hit (fq : string) (sch : uc_object) : entry :=
  Result ("schema::" ++ fq) ("Schema: " ++ fq) (comment_of sch) (MObject sch).

Definition table_hit (fqt : string) (tbl : uc_object) : entry :=
  Result ("table::" ++ fqt) ("Table: " ++ fqt) (comment_of tbl) (MObject tbl).

(** The body of the [try] of the metadata path. *)
Definition search_metadata (w : world) (qlc : string) : M unit :=
  (cats <- call (list_catalogs w) ;;
   for_each (items cats) (fun cat =>
     when (contains qlc (lower (obj_name cat))) (append (catalog_hit cat))) ;;;
   for_each (items cats) (fun cat =>
     schs <- call (list_schemas w (obj_name cat)) ;;
     for_each (items schs) (fun sch =>
       let fq := obj_name cat ++ "." ++ obj_name sch in
       when (contains qlc (lower fq)) (append (schema_hit fq sch)) ;;;
       tbls <- call (list_tables w (obj_name cat) (obj_name sch)) ;;
       for_each (items tbls) (fun tbl =>
         let fqt := fq ++ "." ++ obj_name tbl in
         when (contains qlc (lower fqt)) (append (table_hit fqt tbl))))))%search.

(** [search] returns [{"results": results}]; the model returns [results]. *)
Definition search (w : world) (query : string) : outcome (list entry) :=
  if _is_sql query then Ret [sql_stub (sql_of_query query)]
  else
    let qlc := lower query in
    match search_metadata w qlc [] with
    | (Ret _, results) => Ret results
    | (Raise exc, results) =>
        if is_Exception exc then Ret (results ++ [Error (str_exn exc)])%list
        else Raise exc
    end.

(** *** [fetch] *)

(** The [try] of the SQL branch, for the statement [sql]. *)
Definition fetch_query (w : world) (rid sql : string) : outcome entry :=
  try_except
    (res <- _run_sql w sql default_wait ;;
     m <- match manifest res with
          | Some m => Ret m
          | None => Raise (KeyError "manifest")
          end ;;
     n <- match total_row_count m with
          | Some n => Ret n
          | None => Raise (KeyError "total_row_count")
          end ;;
     Ret (Result rid "SQL query result"
            ("Returned " ++ str_int n ++ " row(s)") (MStatus res)))
    is_Exception
    (fun exc => Ret (Error ("SQL execution failed: " ++ str_exn exc))).

(** [for o in objs: if o["name"] == name: return {...}] *)
Definition lookup (objs : list uc_object) (name : string) : option uc_object :=
  find (fun o => obj_name o =? name) objs.

Definition found (rid title : string) (o : uc_object) : entry :=
  Result rid title (comment_of o) (MObject o).

Definition not_found (rid : string) : entry :=
  Error ("Resource '" ++ rid ++ "' not found").

(** The second [try] of the metadata branch. *)
Definition fetch_metadata (w : world) (rid kind name : string) : outcome entry :=
  try_except
    (if kind =? "catalog" then
       cats <- list_catalogs w ;;
       match lookup (items cats) name with
       | Some cat => Ret (found rid ("Catalog: " ++ name) cat)
       | None => Ret (not_found rid)
       end
     else if kind =? "schema" then
       '(cat, sch) <- unpack2 (split "." 1 name) ;;
       schs <- list_schemas w cat ;;
       match lookup (items schs) sch with
       | Some s => Ret (found rid ("Schema: " ++ name) s)
       | None => Ret (not_found rid)
       end
     else if kind =? "table" then
       '(cat, sch, tbl) <- unpack3 (split "." 2 name) ;;
       tbls <- list_tables w cat sch ;;
       match lookup (items tbls) tbl with
       | Some t => Ret (found rid ("Table: " ++ name) t)
       | None => Ret (not_found rid)
       end
     else Ret (not_found rid))
    is_Exception
    (fun exc => Ret (Error (str_exn exc))).

Definition fetch (w : world) (rid : string) : outcome entry :=
  if startswith rid "query::" then
    sql <- index (split "::" 1 rid) 1 ;;
    fetch_query w rid sql
  else
    match try_except
            ('(kind, name) <- unpack2 (split "::" 1 rid) ;; Ret (Some (kind, name)))
            is_ValueError
            (fun _ => Ret None)
    with
    | Ret (Some (kind, name)) => fetch_metadata w rid kind name
    | Ret None => Ret (Error "Bad ID format")
    | Raise e => Raise e
    end.

(** ** Sample workspaces *)

Module Sample.

Definition obj (n : string) : uc_object :=
  {| obj_name := n; obj_comment := None; obj_extra := [] |}.

Definition down {A} : outcome A := Raise (RequestException "503 Server Error").

Definition status (st : string) (err : option string) (rows : option Z)
    (res : option json) : status_doc :=
  {| state := st;
     error := match err with
              | Some m => Some {| message := Some m |}
              | None => None
              end;
     manifest := match rows with
                 | Some n => Some {| total_row_count := Some n |}
                 | None => None
                 end;
     result := res |}.

Definition rows3 : json :=
  JObj [("data_array", JArr [JArr [JStr "1"]; JArr [JStr "2"]; JArr [JStr "3"]])].

(** Two catalogs; [main] has schemas [sales] and [hr], [dev] has none;
    the statement service answers every poll with [polls]. *)
Definition workspace (polls : nat -> outcome status_doc) : world :=
  {| WAREHOUSE_ID := "wh-1";
     list_catalogs := Ret (Some [obj "main"; obj "dev"]);
     list_schemas := fun cat =>
       if cat =? "main" then Ret (Some [obj "sales"; obj "hr"]) else Ret None;
     list_tables := fun cat sch =>
       if (cat =? "main") && (sch =? "sales")
       then Ret (Some [obj "orders"; obj "a.b"])
       else if (cat =? "main") && (sch =? "hr") then Ret (Some [obj "staff"])
       else Ret (Some []);
     post_statement := fun _ => Ret (Some "stmt-1");
     get_statement := fun _ k => polls k;
     str_status := fun st => "{'status': {'state': '" ++ state st ++ "'}}" |}.

(** The same workspace with the table listing of [main.hr] out of order. *)
Definition flaky (w : world) : world :=
  {| WAREHOUSE_ID := WAREHOUSE_ID w;
     list_catalogs := list_catalogs w;
     list_schemas := list_schemas w;
     list_tables := fun cat sch =>
       if (cat =? "main") && (sch =? "hr") then down else list_tables w cat sch;
     post_statement := post_statement w;
     get_statement := get_statement w;
     str_status := str_status w |}.

Definition succeeds : world :=
  workspace (fun _ => Ret (status "SUCCEEDED" None (Some 3%Z) (Some rows3))).
Definition fails : world :=
  workspace (fun _ => Ret (status "FAILED" (Some "syntax error") None None)).
Definition pending : world :=
  workspace (fun _ => Ret (status "RUNNING" None None None)).
(** State flips to SUCCEEDED at once, the result shows up at the third poll. *)
Definition late_result : world :=
  workspace (fun k =>
    if (k <? 2)%nat then Ret (status "SUCCEEDED" None (Some 3%Z) None)
    else Ret (status "SUCCEEDED" None (Some 3%Z) (Some rows3))).
Definition no_manifest : world :=
  workspace (fun _ => Ret (status "SUCCEEDED" None None (Some rows3))).
Definition no_row_count : world :=
  workspace (fun _ => Ret
    {| state := "SUCCEEDED"; error := None;
       manifest := Some {| total_row_count := None |};
       result := Some rows3 |}).

End Sample.

(** ** The specification's own wording

    Definitions that follow the words of the specification, to be compared
    with the program above. *)

Module Spec.

(** The resource identifier as a tagged union. *)
Inductive resource_id : Type :=
| Catalog (name : string)
| Schema (catalog schema : string)
| Table (catalog schema table : string)
| Query (sql : string).

(** The parts of a payload between its dots. *)
Definition parts (payload : string) : list string :=
  split "." (String.length payload) payload.

(** Decoding as specified: split on the first [::]; a [query] keeps its
    payload whole; otherwise the payload is split on every dot, and one
    part makes a catalog, two a schema, three a table.  Any other shape is
    malformed. *)
Definition decode (id : string) : option resource_id :=
  match cut "::" id with
  | None => None
  | Some (kind, payload) =>
      if kind =? "query" then Some (Query payload)
      else
        match parts payload with
        | [c] => if kind =? "catalog" then Some (Catalog c) else None
        | [c; s] => if kind =? "schema" then Some (Schema c s) else None
        | [c; s; t] => if kind =? "table" then Some (Table c s t) else None
        | _ => None
        end
  end.

Definition malformed (id : string) : bool :=
  match decode id with
  | None => true
  | Some _ => false
  end.

(** Normalisation as specified for a text the classifier takes for SQL:
    the classifier looks at the left-trimmed text, so the [sql:] marker it
    found there is removed, and the rest is trimmed. *)
Definition normalized_sql (query : string) : string :=
  let text := lstrip query in
  if startswith (lower text) "sql:"
  then strip (slice_from (String.length "sql:") text)
  else strip query.

(** A status that ends the poll loop. *)
Definition terminal (status : status_doc) : bool :=
  ((state status =? "SUCCEEDED") && has_result status)
  || (state status =? "FAILED").

(** Case-insensitive substring match of the query against a name. *)
Definition matches (query fq : string) : bool :=
  contains (lower query) (lower fq).

(** The objects a listing call returned; nothing when it failed. *)
Definition listed (o : outcome listing) : list uc_object :=
  match o with
  | Ret l => items l
  | Raise _ => []
  end.

Definition fq_schema (cat sch : uc_object) : string :=
  obj_name cat ++ "." ++ obj_name sch.

Definition fq_table (cat sch tbl : uc_object) : string :=
  fq_schema cat sch ++ "." ++ obj_name tbl.

(** The order of the results as specified: the matching catalogs in
    listing order; then, catalog by catalog in that order, each matching
    schema followed at once by the matching tables of that schema. *)
Definition schema_block (w : world) (query : string) (cat sch : uc_object)
  : list entry :=
  ((if matches query (fq_schema cat sch)
    then [schema_hit (fq_schema cat sch) sch] else [])
   ++ map (fun tbl => table_hit (fq_table cat sch tbl) tbl)
        (filter (fun tbl => matches query (fq_table cat sch tbl))
           (listed (list_tables w (obj_name cat) (obj_name sch)))))%list.

Definition catalog_block (w : world) (query : string) (cat : uc_object)
  : list entry :=
  flat_map (schema_block w query cat) (listed (list_schemas w (obj_name cat))).

Definition expected_order (w : world) (query : string) : list entry :=
  (map catalog_hit
     (filter (fun cat => matches query (obj_name cat)) (listed (list_catalogs w)))
   ++ flat_map (catalog_block w query) (listed (list_catalogs w)))%list.

(** One result for every object the client enumerates. *)
Definition every_object (w : world) : list entry :=
  (map catalog_hit (listed (list_catalogs w))
   ++ flat_map (fun cat =>
        flat_map (fun sch =>
          schema_hit (fq_schema cat sch) sch
          :: map (fun tbl => table_hit (fq_table cat sch tbl) tbl)
               (listed (list_tables w (obj_name cat) (obj_name sch))))
          (listed (list_schemas w (obj_name cat))))
        (listed (list_catalogs w)))%list.

(** Every listing call that a search makes succeeds. *)
Definition schemas_listed (w : world) (cat : uc_object) : bool :=
  match list_schemas w (obj_name cat) with
  | Raise _ => false
  | Ret schs =>
      forallb (fun sch =>
        match list_tables w (obj_name cat) (obj_name sch) with
        | Raise _ => false
        | Ret _ => true
        end) (items schs)
  end.

Definition all_listed (w : world) : bool :=
  match list_catalogs w with
  | Raise _ => false
  | Ret cats => forallb (schemas_listed w) (items cats)
  end.

End Spec.

(** ** What a search computation appends

    [yields m ok exp]: started on any list, [m] appends a prefix of [exp]
    to it and nothing else; it appends all of [exp] when it returns, and
    it returns when [ok] holds. *)

Definition yields (m : M unit) (ok : bool) (exp : list entry) : Prop :=
  forall rs, exists o out,
    m rs = (o, (rs ++ out)%list)
    /\ (exists rest, exp = (out ++ rest)%list)
    /\ (forall u, o = Ret u -> out = exp)
    /\ (ok = true -> o = Ret tt).

(** The first exception in the order of the calls: the catalog listing;
    then, catalog by catalog, the schema listing and, schema by schema, the
    table listing. *)

Fixpoint first_raise {A} (f : A -> option exn) (l : list A) : option exn :=
  match l with
  | [] => None
  | x :: l' =>
      match f x with
      | Some e => Some e
      | None => first_raise f l'
      end
  end.

Definition first_failure (w : world) : option exn :=
  match list_catalogs w with
  | Raise e => Some e
  | Ret cats =>
      first_raise (fun cat =>
        match list_schemas w (obj_name cat) with
        | Raise e => Some e
        | Ret schs =>
            first_raise (fun sch =>
              match list_tables w (obj_name cat) (obj_name sch) with
              | Raise e => Some e
              | Ret _ => None
              end) (items schs)
        end) (items cats)
  end.

(** What a metadata search has gathered when it stops, and the exception
    that stopped it, if any: each step contributes its hits, and the steps
    after a failing call contribute nothing. *)

Definition trace : Type := (list entry * option exn)%type.

Definition then_trace (a b : trace) : trace :=
  match snd a with
  | Some _ => a
  | None => ((fst a ++ fst b)%list, snd b)
  end.

Fixpoint each_trace {A} (f : A -> trace) (l : list A) : trace :=
  match l with
  | [] => ([], None)
  | x :: l' => then_trace (f x) (each_trace f l')
  end.

Definition gathered (w : world) (query : string) : trace :=
  match list_catalogs w with
  | Raise e => ([], Some e)
  | Ret cats =>
      then_trace
        (map catalog_hit
           (filter (fun cat => Spec.matches query (obj_name cat)) (items cats)),
         None)
        (each_trace (fun cat =>
           match list_schemas w (obj_name cat) with
           | Raise e => ([], Some e)
           | Ret schs =>
               each_trace (fun sch =>
                 then_trace
                   (if Spec.matches query (Spec.fq_schema cat sch)
                    then [schema_hit (Spec.fq_schema cat sch) sch] else [],
                    None)
                   (match list_tables w (obj_name cat) (obj_name sch) with
                    | Raise e => ([], Some e)
                    | Ret tbls =>
                        (map (fun tbl => table_hit (Spec.fq_table cat sch tbl) tbl)
                           (filter (fun tbl =>
                              Spec.matches query (Spec.fq_table cat sch tbl))
                              (items tbls)),
                         None)
                    end)) (items schs)
           end) (items cats))
  end.

(** [runs m t]: started on any list, [m] appends the hits of [t] and ends
    as [t] does. *)
Definition runs (m : M unit) (t : trace) : Prop :=
  forall rs,
    m rs = (match snd t with
            | None => Ret tt
            | Some e => Raise e
            end, (rs ++ fst t)%list).

(** [ends m fail]: started on any list, [m] returns when [fail] is [None]
    and raises [e] when it is [Some e]. *)
Definition ends (m : M unit) (fail : option exn) : Prop :=
  forall rs,
    fst (m rs) = match fail with
                 | None => Ret tt
                 | Some e => Raise e
                 end.

(** ** Start-up and the requests of the helpers

    The part of the module above the tools: the three required settings,
    and the request that [_get] sends for each helper.  The transport
    ([requests.get], [raise_for_status] and [r.json()]) is a parameter
    [http]. *)

Module Startup.

(** [os.getenv]: the value of a variable, when it is set. *)
Definition environ : Type := string -> option string.

(** Truthiness of what [os.getenv] returns: [None] and [""] are false. *)
Definition is_set (v : option string) : bool :=
  match v with
  | Some s => negb (s =? "")
  | None => false
  end.

Record settings : Type := {
  WORKSPACE_URL : string;
  ACCESS_TOKEN : string;
  WAREHOUSE_ID : string
}.

(** The module level down to the check, in the order of the source: the
    logging set-up of lines 13-18, then the three [os.getenv] and the
    [raise].  [configure_logging] stands for
    [logging.basicConfig(level=raw.upper(), ...)] on the raw value of
    LOG_LEVEL; it raises [ValueError] for a level the library does not
    know. *)
Definition load (configure_logging : string -> outcome unit)
    (getenv : environ) : outcome settings :=
  let raw_level := match getenv "LOG_LEVEL" with
                   | Some v => v
                   | None => "DEBUG"
                   end in
  _ <- configure_logging raw_level ;;
  let url := getenv "DATABRICKS_WORKSPACE_URL" in
  let token := getenv "DATABRICKS_TOKEN" in
  let warehouse := getenv "DATABRICKS_WAREHOUSE_ID" in
  if negb (is_set url && is_set token && is_set warehouse) then
    Raise (RuntimeError
      "Set DATABRICKS_WORKSPACE_URL, DATABRICKS_TOKEN and DATABRICKS_WAREHOUSE_ID")
  else
    match url, token, warehouse with
    | Some u, Some t, Some h =>
        Ret {| WORKSPACE_URL := u; ACCESS_TOKEN := t; WAREHOUSE_ID := h |}
    | _, _, _ =>
        Raise (RuntimeError
          "Set DATABRICKS_WORKSPACE_URL, DATABRICKS_TOKEN and DATABRICKS_WAREHOUSE_ID")
    end.

(** What [requests.get] is called with. *)
Record request : Type := {
  url : string;
  authorization : string;
  timeout : nat
}.

Definition transport : Type := request -> outcome json.

(** [HEADERS] *)
Definition HEADERS (s : settings) : string := "Bearer " ++ ACCESS_TOKEN s.

Definition _get (http : transport) (s : settings) (path : string)
    (timeout : nat) : outcome json :=
  http {| url := WORKSPACE_URL s ++ path;
          authorization := HEADERS s;
          timeout := timeout |}.

Definition list_catalogs (http : transport) (s : settings) : outcome json :=
  _get http s "/api/2.1/unity-catalog/catalogs" 10.

Definition list_schemas (http : transport) (s : settings) (cat : string)
  : outcome json :=
  _get http s ("/api/2.1/unity-catalog/schemas?catalog_name=" ++ cat) 10.

Definition list_tables (http : transport) (s : settings) (cat sch : string)
  : outcome json :=
  _get http s
    ("/api/2.1/unity-catalog/tables?catalog_name=" ++ cat
     ++ "&schema_name=" ++ sch) 60.

End Startup.

(** Further sample data. *)

Module Fixture.

Definition getenv : Startup.environ := fun name =>
  if name =? "DATABRICKS_WORKSPACE_URL" then Some "https://dbc.example"
  else if name =? "DATABRICKS_TOKEN" then Some "tok"
  else if name =? "DATABRICKS_WAREHOUSE_ID" then Some "wh-1"
  else None.

(** A logging library that takes the level names in any letter case; the
    message is the library's for a raw value already in upper case. *)
Definition configure_logging : string -> outcome unit := fun raw =>
  if existsb (String.eqb (lower raw))
       ["critical"; "fatal"; "error"; "warn"; "warning"; "info"; "debug";
        "notset"]
  then Ret tt
  else Raise (ValueError ("Unknown level: '" ++ raw ++ "'")).

(** All three variables set, and a log level the library refuses. *)
Definition getenv_bogus_level : Startup.environ := fun name =>
  if name =? "LOG_LEVEL" then Some "BOGUS" else getenv name.

(** The token is set, to the empty string. *)
Definition getenv_empty_token : Startup.environ := fun name =>
  if name =? "DATABRICKS_TOKEN" then Some "" else getenv name.

Definition settings : Startup.settings :=
  {| Startup.WORKSPACE_URL := "https://dbc.example";
     Startup.ACCESS_TOKEN := "tok";
     Startup.WAREHOUSE_ID := "wh-1" |}.

(** A transport that answers with the URL it was asked for. *)
Definition echo : Startup.transport := fun r => Ret (JStr (Startup.url r)).

(** The statement fails at the third poll, without an error message. *)
Definition fails_late : world :=
  Sample.workspace (fun k =>
    if (k <? 2)%nat then Ret (Sample.status "PENDING" None None None)
    else Ret (Sample.status "FAILED" None None None)).

(** The status request breaks at the second poll. *)
Definition poll_breaks : world :=
  Sample.workspace (fun k =>
    if (k <? 1)%nat then Ret (Sample.status "RUNNING" None None None)
    else Raise (RequestException "502 Bad Gateway")).

(** The submission is refused. *)
Definition refused : world :=
  {| WAREHOUSE_ID := "wh-1";
     list_catalogs := Sample.down;
     list_schemas := fun _ => Sample.down;
     list_tables := fun _ _ => Sample.down;
     post_statement := fun _ => Raise (RequestException "403 Forbidden");
     get_statement := fun _ _ => Sample.down;
     str_status := fun _ => "" |}.

(** A listing without its key, and one with a name listed twice. *)
Definition no_key : world :=
  {| WAREHOUSE_ID := "wh-1";
     list_catalogs := Ret None;
     list_schemas := fun _ => Sample.down;
     list_tables := fun _ _ => Sample.down;
     post_statement := fun _ => Sample.down;
     get_statement := fun _ _ => Sample.down;
     str_status := fun _ => "" |}.

Definition twin (c : string) : uc_object :=
  {| obj_name := "main"; obj_comment := Some c; obj_extra := [] |}.

Definition twins : world :=
  {| WAREHOUSE_ID := "wh-1";
     list_catalogs := Ret (Some [Sample.obj "dev"; twin "first"; twin "second"]);
     list_schemas := fun _ => Sample.down;
     list_tables := fun _ _ => Sample.down;
     post_statement := fun _ => Sample.down;
     get_statement := fun _ _ => Sample.down;
     str_status := fun _ => "" |}.

End Fixture.

(** ** Examples *)

Example lower_ex : lower "SeLect *" = "select *". Proof. reflexivity. Qed.
Example strip_ex : strip "  a b  " = "a b". Proof. reflexivity. Qed.
Example split_ex1 : split "::" 1 "a::b::c" = ["a"; "b::c"]. Proof. reflexivity. Qed.
Example split_ex2 : split "." 2 "a.b.c.d" = ["a"; "b"; "c.d"]. Proof. reflexivity. Qed.
Example split_ex3 : split "::" 1 "garbage" = ["garbage"]. Proof. reflexivity. Qed.
Example str_int_ex : str_int 3 = "3" /\ str_int (-12) = "-12" /\ str_int 0 = "0".
Proof. repeat split; reflexivity. Qed.

Example is_sql_ex :
  _is_sql "  SeLeCT 1" = true /\ _is_sql "sql: show tables" = true
  /\ _is_sql "sales" = false /\ _is_sql "" = false
  /\ _is_sql "select_something" = true.
Proof. repeat split; reflexivity. Qed.

Example search_sql_ex :
  search Sample.pending "sql:  SELECT a::int FROM t.u " =
  Ret [Result "query::SELECT a::int FROM t.u" "SQL query preview"
         "SELECT a::int FROM t.u" (MSql "SELECT a::int FROM t.u")].
Proof. reflexivity. Qed.

Example search_metadata_ex :
  search Sample.pending "SALES" =
  Ret [schema_hit "main.sales" (Sample.obj "sales");
       table_hit "main.sales.orders" (Sample.obj "orders");
       table_hit "main.sales.a.b" (Sample.obj "a.b")].
Proof. reflexivity. Qed.

Example search_flaky_ex :
  search (Sample.flaky Sample.pending) "main" =
  Ret [catalog_hit (Sample.obj "main");
       schema_hit "main.sales" (Sample.obj "sales");
       table_hit "main.sales.orders" (Sample.obj "orders");
       table_hit "main.sales.a.b" (Sample.obj "a.b");
       schema_hit "main.hr" (Sample.obj "hr");
       Error "503 Server Error"].
Proof. reflexivity. Qed.

Example fetch_rows_ex :
  fetch Sample.succeeds "query::SELECT 1" =
  Ret (Result "query::SELECT 1" "SQL query result" "Returned 3 row(s)"
         (MStatus (Sample.status "SUCCEEDED" None (Some 3%Z) (Some Sample.rows3)))).
Proof. reflexivity. Qed.

Example fetch_unknown_table_ex :
  fetch Sample.pending "table::main.sales.unknown_table" =
  Ret (Error "Resource 'table::main.sales.unknown_table' not found").
Proof. reflexivity. Qed.

Example fetch_garbage_ex :
  fetch Sample.pending "garbage" = Ret (Error "Bad ID format").
Proof. reflexivity. Qed.

Example fetch_late_result_ex :
  exists st, fetch Sample.late_result "query::SELECT 1" =
             Ret (Result "query::SELECT 1" "SQL query result"
                    "Returned 3 row(s)" (MStatus st))
             /\ result st = Some Sample.rows3.
Proof. eexists; split; reflexivity. Qed.

(** ** Facts about the string operations *)

Section StringFacts.

#[local] Arguments Ascii.eqb : simpl never.

Lemma startswith_nil (s : string) : startswith s "" = true.
Proof. destruct s; reflexivity. Qed.

Lemma startswith_split (p s : string) :
  startswith s p = true -> s = p ++ slice_from (String.length p) s.
Proof.
  revert s; induction p as [|a p IH]; intros s H.
  - reflexivity.
  - destruct s as [|b s]; [discriminate|].
    simpl in H. apply andb_prop in H as [Hab Hs].
    apply Ascii.eqb_eq in Hab; subst b.
    simpl. f_equal. now apply IH.
Qed.

Lemma contains_nil (hay : string) : contains "" hay = true.
Proof. destruct hay; reflexivity. Qed.

Lemma cut_none (sep s : string) :
  contains sep s = false -> cut sep s = None.
Proof.
  induction s as [|c s IH]; simpl; intros H;
    apply orb_false_elim in H as [H1 H2]; rewrite H1.
  - reflexivity.
  - now rewrite (IH H2).
Qed.

Lemma cut_some_contains (sep s a b : string) :
  cut sep s = Some (a, b) -> contains sep s = true.
Proof.
  intros H. destruct (contains sep s) eqn:E; [reflexivity|].
  rewrite (cut_none _ _ E) in H. discriminate.
Qed.

(** A one-character separator is found right after a text without it. *)
Lemma cut_dot (a b : string) :
  contains "." a = false -> cut "." (a ++ String "." b) = Some (a, b).
Proof.
  induction a as [|c a IH]; intros H.
  - simpl. now rewrite startswith_nil.
  - simpl in H. apply orb_false_elim in H as [H1 H2].
    rewrite startswith_nil, andb_true_r in H1.
    simpl. rewrite startswith_nil, andb_true_r, H1.
    now rewrite (IH H2).
Qed.

(** The first [::] of a query id is the one after its tag. *)
Lemma cut_query (sql : string) : cut "::" ("query::" ++ sql) = Some ("query", sql).
Proof. simpl. now rewrite startswith_nil. Qed.

Lemma split_query (sql : string) :
  split "::" 1 ("query::" ++ sql) = ["query"; sql].
Proof. unfold split. now rewrite cut_query. Qed.

Lemma query_tag_kind (rid kind name : string) :
  startswith rid "query::" = true ->
  cut "::" rid = Some (kind, name) -> kind = "query".
Proof.
  intros Hp Hc. apply startswith_split in Hp. rewrite Hp, cut_query in Hc.
  now inversion Hc.
Qed.

Lemma no_separator_no_tag (rid : string) :
  contains "::" rid = false -> startswith rid "query::" = false.
Proof.
  intros H. destruct (startswith rid "query::") eqn:E; [|reflexivity].
  apply startswith_split in E.
  pose proof (cut_some_contains _ _ _ _ (eq_trans (f_equal (cut "::") E)
                                            (cut_query _))) as C.
  congruence.
Qed.

Lemma space_not_s (c : ascii) : lower_char c = "s"%char -> is_space c = false.
Proof.
  destruct c as [[] [] [] [] [] [] [] []]; vm_compute; congruence.
Qed.

Lemma marker_not_trimmed (query : string) :
  startswith (lower query) "sql:" = true -> lstrip query = query.
Proof.
  destruct query as [|c q]; [discriminate|].
  simpl. intros H. apply andb_prop in H as [H _].
  apply Ascii.eqb_eq in H. symmetry in H.
  now rewrite (space_not_s _ H).
Qed.

End StringFacts.

(** ** The identifier scheme *)

Section Identifiers.

Variable w : world.

#[local] Arguments Ascii.eqb : simpl never.

Lemma startswith_app (p s : string) : startswith (p ++ s) p = true.
Proof.
  induction p as [|a p IH]; simpl.
  - apply startswith_nil.
  - now rewrite Ascii.eqb_refl, IH.
Qed.

(** A query id reaches the SQL branch with the text after its tag. *)
Lemma fetch_query_id (sql : string) :
  fetch w ("query::" ++ sql) = fetch_query w ("query::" ++ sql) sql.
Proof.
  unfold fetch. rewrite startswith_app, split_query. reflexivity.
Qed.

(** An id without [::] leaves [split] with one piece. *)
Lemma fetch_no_separator (rid : string) :
  contains "::" rid = false -> fetch w rid = Ret (Error "Bad ID format").
Proof.
  intros H. unfold fetch, split.
  rewrite (no_separator_no_tag _ H), (cut_none _ _ H). reflexivity.
Qed.

(** An id with a separator and without the query tag goes to the metadata
    lookup with the two sides of its first [::]. *)
Lemma fetch_dispatch (rid kind name : string) :
  cut "::" rid = Some (kind, name) -> kind <> "query" ->
  fetch w rid = fetch_metadata w rid kind name.
Proof.
  intros Hc Hk. unfold fetch, split.
  destruct (startswith rid "query::") eqn:E.
  - elim Hk. exact (query_tag_kind _ _ _ E Hc).
  - rewrite Hc. reflexivity.
Qed.

Lemma fetch_unknown_kind (rid kind name : string) :
  cut "::" rid = Some (kind, name) ->
  kind <> "query" -> kind <> "catalog" -> kind <> "schema" -> kind <> "table" ->
  fetch w rid = Ret (not_found rid).
Proof.
  intros Hc Hq H1 H2 H3. rewrite (fetch_dispatch _ _ _ Hc Hq).
  unfold fetch_metadata.
  apply String.eqb_neq in H1, H2, H3. rewrite H1, H2, H3. reflexivity.
Qed.

Lemma split_table_name (cat sch tbl : string) :
  contains "." cat = false -> contains "." sch = false ->
  split "." 2 (cat ++ "." ++ sch ++ "." ++ tbl) = [cat; sch; tbl].
Proof.
  intros Hc Hs. change ("." ++ sch ++ "." ++ tbl) with (String "." (sch ++ String "." tbl)).
  unfold split. now rewrite (cut_dot _ _ Hc), (cut_dot _ _ Hs).
Qed.

Lemma fetch_table (cat sch tbl : string) :
  contains "." cat = false -> contains "." sch = false ->
  let name := cat ++ "." ++ sch ++ "." ++ tbl in
  let rid := "table::" ++ name in
  fetch w rid =
  match list_tables w cat sch with
  | Ret tbls =>
      match lookup (items tbls) tbl with
      | Some t => Ret (found rid ("Table: " ++ name) t)
      | None => Ret (not_found rid)
      end
  | Raise exc => Ret (Error (str_exn exc))
  end.
Proof.
  intros Hc Hs name rid.
  assert (Hcut : cut "::" rid = Some ("table", name)).
  { unfold rid. simpl. now rewrite startswith_nil. }
  rewrite (fetch_dispatch _ _ _ Hcut) by discriminate.
  unfold fetch_metadata.
  change ("table" =? "catalog") with false.
  change ("table" =? "schema") with false.
  change ("table" =? "table") with true.
  cbv iota. unfold name at 1. rewrite (split_table_name _ _ _ Hc Hs).
  cbn [unpack3 bind].
  destruct (list_tables w cat sch) as [tbls|e]; cbn [bind try_except].
  - destruct (lookup (items tbls) tbl); reflexivity.
  - destruct e; reflexivity.
Qed.

End Identifiers.

(** ** The statement execution engine *)

Section Engine.

Variable w : world.

Lemma poll_continues (st_id : option string) (n k : nat) (status : status_doc) :
  get_statement w st_id k = Ret status -> Spec.terminal status = false ->
  poll w st_id (S n) k = poll w st_id n (S k).
Proof.
  intros Hg Ht. unfold Spec.terminal in Ht.
  apply orb_false_elim in Ht as [H1 H2].
  cbn [poll]. rewrite Hg. cbn [bind]. now rewrite H1, H2.
Qed.

Lemma poll_times_out (st_id : option string) (n k : nat) :
  (forall i, (i < n)%nat -> exists status,
      get_statement w st_id (k + i) = Ret status /\ Spec.terminal status = false) ->
  poll w st_id n k = Raise (TimeoutError "SQL timed out after wait_timeout").
Proof.
  revert k; induction n as [|n IH]; intros k H.
  - reflexivity.
  - destruct (H 0%nat) as (status & Hg & Ht); [lia|].
    rewrite Nat.add_0_r in Hg. rewrite (poll_continues _ _ _ _ Hg Ht).
    apply IH. intros i Hi. destruct (H (S i)) as (st & Hg' & Ht'); [lia|].
    exists st. split; [|exact Ht'].
    now replace (S k + i)%nat with (k + S i)%nat by lia.
Qed.

Lemma poll_returns (st_id : option string) (n k : nat) (status : status_doc) :
  poll w st_id n k = Ret status ->
  state status = "SUCCEEDED" /\ has_result status = true.
Proof.
  revert k; induction n as [|n IH]; intros k H.
  - discriminate.
  - cbn [poll] in H. destruct (get_statement w st_id k) as [st|e]; [|discriminate].
    cbn [bind] in H.
    destruct ((state st =? "SUCCEEDED") && has_result st) eqn:E.
    + inversion H; subst st. apply andb_prop in E as [E1 E2].
      split; [now apply String.eqb_eq|exact E2].
    + destruct (state st =? "FAILED"); [discriminate|]. now apply IH in H.
Qed.

Lemma has_result_present (status : status_doc) :
  has_result status = true -> exists r, result status = Some r /\ truthy r = true.
Proof.
  unfold has_result. destruct (result status) as [r|]; [|discriminate].
  intros H. now exists r.
Qed.

Lemma run_sql_returns (sql : string) (wait : Z) (status : status_doc) :
  _run_sql w sql wait = Ret status ->
  state status = "SUCCEEDED" /\ has_result status = true.
Proof.
  unfold _run_sql. destruct (post_statement w _) as [st_id|e]; [|discriminate].
  apply poll_returns.
Qed.

(** What the SQL branch of [fetch] makes of each outcome of the engine. *)
Lemma fetch_query_raise (rid sql : string) (exc : exn) :
  _run_sql w sql default_wait = Raise exc ->
  fetch_query w rid sql = Ret (Error ("SQL execution failed: " ++ str_exn exc)).
Proof.
  intros H. unfold fetch_query. rewrite H. destruct exc; reflexivity.
Qed.

Lemma fetch_query_no_manifest (rid sql : string) (res : status_doc) :
  _run_sql w sql default_wait = Ret res -> manifest res = None ->
  fetch_query w rid sql = Ret (Error "SQL execution failed: 'manifest'").
Proof.
  intros H Hm. unfold fetch_query. rewrite H. cbn [bind]. now rewrite Hm.
Qed.

Lemma fetch_query_no_row_count (rid sql : string) (res : status_doc)
    (m : manifest_doc) :
  _run_sql w sql default_wait = Ret res -> manifest res = Some m ->
  total_row_count m = None ->
  fetch_query w rid sql = Ret (Error "SQL execution failed: 'total_row_count'").
Proof.
  intros H Hm Hn. unfold fetch_query. rewrite H. cbn [bind].
  rewrite Hm. cbn [bind]. now rewrite Hn.
Qed.

Lemma run_sql_failed (sql : string) (st_id : option string) (status : status_doc) :
  post_statement w (submission w sql default_wait) = Ret st_id ->
  get_statement w st_id 0 = Ret status -> state status = "FAILED" ->
  _run_sql w sql default_wait =
  Raise (RuntimeError ("SQL execution failed: " ++ error_msg w status)).
Proof.
  intros Hp Hg Hs. unfold _run_sql. rewrite Hp. cbn [bind].
  change (Z.to_nat default_wait) with 15%nat. cbn [poll].
  rewrite Hg. cbn [bind]. now rewrite Hs.
Qed.

(** The message of a failed statement reaches the caller with the prefix
    of [_run_sql] and the prefix of [fetch]. *)
Lemma fetch_failed_statement (sql : string) (st_id : option string)
    (status : status_doc) :
  post_statement w (submission w sql default_wait) = Ret st_id ->
  get_statement w st_id 0 = Ret status -> state status = "FAILED" ->
  fetch w ("query::" ++ sql) =
  Ret (Error ("SQL execution failed: " ++ "SQL execution failed: "
              ++ error_msg w status)).
Proof.
  intros Hp Hg Hs. rewrite fetch_query_id.
  now rewrite (fetch_query_raise _ _ _ (run_sql_failed _ _ _ Hp Hg Hs)).
Qed.

Lemma fetch_query_total (rid sql : string) : exists r, fetch_query w rid sql = Ret r.
Proof.
  unfold fetch_query. destruct (_run_sql w sql default_wait) as [res|e];
    cbn [bind].
  - destruct (manifest res) as [m|]; cbn [bind try_except is_Exception];
      [|eauto].
    destruct (total_row_count m); cbn [bind try_except is_Exception]; eauto.
  - destruct e; cbn [try_except is_Exception]; eauto.
Qed.

End Engine.

(** ** The metadata search loop *)

Section SearchLoop.

Lemma yields_mret : yields (mret tt) true [].
Proof.
  intros rs. exists (Ret tt), []. rewrite app_nil_r.
  repeat split; eauto. now exists [].
Qed.

Lemma yields_append (e : entry) : yields (append e) true [e].
Proof.
  intros rs. exists (Ret tt), [e]. repeat split; eauto. now exists [].
Qed.

Lemma yields_when (b : bool) (e : entry) :
  yields (when b (append e)) true (if b then [e] else []).
Proof. destruct b; [apply yields_append | apply yields_mret]. Qed.

Lemma yields_seq (m k : M unit) (okm okk : bool) (em ek : list entry) :
  yields m okm em -> yields k okk ek ->
  yields (mbind m (fun _ => k)) (okm && okk) (em ++ ek).
Proof.
  intros Hm Hk rs. unfold mbind.
  destruct (Hm rs) as (o1 & out1 & E1 & (rest1 & P1) & R1 & O1). rewrite E1.
  destruct o1 as [u|e].
  - rewrite (R1 u eq_refl) in *.
    destruct (Hk (rs ++ em)%list) as (o2 & out2 & E2 & (rest2 & P2) & R2 & O2).
    exists o2, (em ++ out2)%list. rewrite E2, app_assoc. repeat split.
    + exists rest2. now rewrite P2, app_assoc.
    + intros u' Hu. now rewrite (R2 u' Hu).
    + intros Hok. apply andb_prop in Hok as [_ Hok]. now apply O2.
  - exists (Raise e), out1. repeat split.
    + exists (rest1 ++ ek)%list. now rewrite P1, app_assoc.
    + discriminate.
    + intros Hok. apply andb_prop in Hok as [Hok _].
      specialize (O1 Hok). discriminate.
Qed.

Lemma yields_call {A} (o : outcome A) (k : A -> M unit) (ok : A -> bool)
    (exp : A -> list entry) :
  (forall a, yields (k a) (ok a) (exp a)) ->
  yields (mbind (call o) k)
    (match o with Ret a => ok a | Raise _ => false end)
    (match o with Ret a => exp a | Raise _ => [] end).
Proof.
  intros Hk rs. unfold mbind, call. destruct o as [a|e].
  - apply Hk.
  - exists (Raise e), []. rewrite app_nil_r.
    repeat split; try discriminate. now exists [].
Qed.

Lemma yields_for_each {A} (l : list A) (body : A -> M unit) (ok : A -> bool)
    (exp : A -> list entry) :
  (forall x, yields (body x) (ok x) (exp x)) ->
  yields (for_each l body) (forallb ok l) (flat_map exp l).
Proof.
  intros Hb. induction l as [|x l IH]; cbn [for_each forallb flat_map].
  - apply yields_mret.
  - now apply yields_seq.
Qed.

Lemma yields_eq (m : M unit) (ok ok' : bool) (exp exp' : list entry) :
  yields m ok exp -> (ok' = true -> ok = true) -> exp = exp' -> yields m ok' exp'.
Proof.
  intros H Hok <- rs. destruct (H rs) as (o & out & E & P & R & O).
  exists o, out. repeat split; auto.
Qed.

Lemma flat_map_filter {A} (p : A -> bool) (f : A -> entry) (l : list A) :
  flat_map (fun x => if p x then [f x] else []) l = map f (filter p l).
Proof.
  induction l as [|x l IH]; cbn [flat_map filter map]; [reflexivity|].
  destruct (p x); cbn [map app]; now rewrite IH.
Qed.

Lemma forallb_true {A} (l : list A) : forallb (fun _ => true) l = true.
Proof. induction l; auto. Qed.

Variable w : world.
Variable query : string.

Lemma tables_yield (cat sch : uc_object) (tbls : listing) :
  yields
    (for_each (items tbls) (fun tbl =>
       let fqt := (obj_name cat ++ "." ++ obj_name sch) ++ "." ++ obj_name tbl in
       when (contains (lower query) (lower fqt)) (append (table_hit fqt tbl))))
    true
    (map (fun tbl => table_hit (Spec.fq_table cat sch tbl) tbl)
       (filter (fun tbl => Spec.matches query (Spec.fq_table cat sch tbl))
          (items tbls))).
Proof.
  eapply yields_eq.
  - apply yields_for_each with (ok := fun _ => true). intros tbl. apply yields_when.
  - intros _. apply forallb_true.
  - apply flat_map_filter.
Qed.

Lemma schema_yields (cat sch : uc_object) :
  yields
    (let fq := obj_name cat ++ "." ++ obj_name sch in
     mbind (when (contains (lower query) (lower fq)) (append (schema_hit fq sch))) (fun _ =>
     mbind (call (list_tables w (obj_name cat) (obj_name sch))) (fun tbls =>
       for_each (items tbls) (fun tbl =>
         let fqt := fq ++ "." ++ obj_name tbl in
         when (contains (lower query) (lower fqt)) (append (table_hit fqt tbl))))))
    (match list_tables w (obj_name cat) (obj_name sch) with
     | Ret _ => true
     | Raise _ => false
     end)
    (Spec.schema_block w query cat sch).
Proof.
  eapply yields_eq.
  - apply yields_seq; [apply yields_when|].
    apply yields_call. intros tbls. apply (tables_yield cat sch tbls).
  - intros H. now destruct (list_tables w (obj_name cat) (obj_name sch)).
  - unfold Spec.schema_block, Spec.listed. f_equal.
    now destruct (list_tables w (obj_name cat) (obj_name sch)).
Qed.

Lemma catalog_yields (cat : uc_object) :
  yields
    (mbind (call (list_schemas w (obj_name cat))) (fun schs =>
       for_each (items schs) (fun sch =>
         let fq := obj_name cat ++ "." ++ obj_name sch in
         mbind (when (contains (lower query) (lower fq)) (append (schema_hit fq sch))) (fun _ =>
         mbind (call (list_tables w (obj_name cat) (obj_name sch))) (fun tbls =>
           for_each (items tbls) (fun tbl =>
             let fqt := fq ++ "." ++ obj_name tbl in
             when (contains (lower query) (lower fqt)) (append (table_hit fqt tbl))))))))
    (Spec.schemas_listed w cat)
    (Spec.catalog_block w query cat).
Proof.
  eapply yields_eq.
  - apply yields_call. intros schs.
    apply yields_for_each. intros sch. apply (schema_yields cat sch).
  - intros H. exact H.
  - unfold Spec.catalog_block, Spec.listed.
    now destruct (list_schemas w (obj_name cat)).
Qed.

Lemma search_metadata_yields :
  yields (search_metadata w (lower query)) (Spec.all_listed w) (Spec.expected_order w query).
Proof.
  unfold search_metadata. eapply yields_eq.
  - apply yields_call. intros cats. apply yields_seq.
    + apply yields_for_each with (ok := fun _ => true). intros cat. apply yields_when.
    + apply yields_for_each. intros cat. apply (catalog_yields cat).
  - unfold Spec.all_listed. intros H.
    destruct (list_catalogs w) as [cats|e]; [|discriminate].
    now rewrite forallb_true.
  - unfold Spec.expected_order, Spec.listed.
    destruct (list_catalogs w) as [cats|e]; [|reflexivity].
    now rewrite flat_map_filter.
Qed.

End SearchLoop.

(** ** The two tools *)

Section Tools.

Variable w : world.

Lemma search_sql_path (query : string) :
  _is_sql query = true -> search w query = Ret [sql_stub (sql_of_query query)].
Proof. intros H. unfold search. now rewrite H. Qed.

(** Without whitespace before the marker the program normalises as the
    specification does. *)
Lemma sql_of_query_normalized (query : string) :
  lstrip query = query \/ startswith (lower (lstrip query)) "sql:" = false ->
  sql_of_query query = Spec.normalized_sql query.
Proof.
  unfold sql_of_query, Spec.normalized_sql. intros [H|H].
  - now rewrite H.
  - rewrite H. destruct (startswith (lower query) "sql:") eqn:E; [|reflexivity].
    rewrite (marker_not_trimmed _ E) in H. congruence.
Qed.

Lemma search_metadata_path (query : string) :
  _is_sql query = false ->
  exists hits rest,
    Spec.expected_order w query = (hits ++ rest)%list
    /\ ((search w query = Ret hits /\ rest = [])
        \/ (exists exc, search w query = Ret (hits ++ [Error (str_exn exc)])%list
                        /\ Spec.all_listed w = false)).
Proof.
  intros H. unfold search. rewrite H.
  destruct (search_metadata_yields w query []) as (o & out & E & (rest & P) & R & O).
  cbn [app] in E. rewrite E. exists out, rest. split; [exact P|].
  destruct o as [u|e].
  - left. split; [reflexivity|].
    specialize (R u eq_refl).
    assert (Q : (out ++ [] = out ++ rest)%list) by (rewrite app_nil_r; congruence).
    now apply app_inv_head in Q.
  - right. exists e. split; [now destruct e|].
    destruct (Spec.all_listed w); [|reflexivity].
    specialize (O eq_refl). discriminate.
Qed.

Lemma search_all_listed (query : string) :
  _is_sql query = false -> Spec.all_listed w = true ->
  search w query = Ret (Spec.expected_order w query).
Proof.
  intros H Hok.
  destruct (search_metadata_path query H) as (hits & rest & P & [[S' R]|(e & _ & F)]).
  - subst rest. rewrite app_nil_r in P. now rewrite P.
  - congruence.
Qed.

Lemma expected_order_results (query : string) :
  forallb (fun e => negb (is_error e)) (Spec.expected_order w query) = true.
Proof.
  unfold Spec.expected_order. rewrite forallb_app. apply andb_true_intro. split.
  - apply forallb_forall. intros e He. apply in_map_iff in He as (c & <- & _).
    reflexivity.
  - apply forallb_forall. intros e He.
    apply in_flat_map in He as (cat & _ & He). unfold Spec.catalog_block in He.
    apply in_flat_map in He as (sch & _ & He). unfold Spec.schema_block in He.
    apply in_app_or in He as [He|He].
    + destruct (Spec.matches query (Spec.fq_schema cat sch)); [|contradiction].
      destruct He as [<-|[]]. reflexivity.
    + apply in_map_iff in He as (t & <- & _). reflexivity.
Qed.

Lemma matches_empty (fq : string) : Spec.matches "" fq = true.
Proof. apply contains_nil. Qed.

Lemma filter_all {A} (p : A -> bool) (l : list A) :
  (forall x, p x = true) -> filter p l = l.
Proof.
  intros H. induction l as [|x l IH]; cbn [filter]; [reflexivity|].
  now rewrite H, IH.
Qed.

Lemma expected_order_empty : Spec.expected_order w "" = Spec.every_object w.
Proof.
  unfold Spec.expected_order, Spec.every_object.
  rewrite filter_all by (intros; apply matches_empty). f_equal.
  apply flat_map_ext. intros cat. unfold Spec.catalog_block.
  apply flat_map_ext. intros sch. unfold Spec.schema_block.
  rewrite matches_empty, filter_all by (intros; apply matches_empty).
  reflexivity.
Qed.

Lemma fetch_metadata_total (rid kind name : string) :
  exists r, fetch_metadata w rid kind name = Ret r.
Proof.
  unfold fetch_metadata.
  match goal with
  | |- exists r, try_except ?b _ _ = _ => destruct b as [r|e]
  end.
  - now exists r.
  - destruct e; cbn [try_except is_Exception]; eauto.
Qed.

Lemma fetch_total (rid : string) : exists r, fetch w rid = Ret r.
Proof.
  unfold fetch. destruct (startswith rid "query::") eqn:E.
  - apply startswith_split in E. rewrite E, split_query.
    cbn [index nth_error bind]. apply fetch_query_total.
  - unfold split. destruct (cut "::" rid) as [[kind name]|].
    + cbn [unpack2 bind try_except]. apply fetch_metadata_total.
    + cbn [unpack2 bind try_except is_ValueError]. eauto.
Qed.

Lemma search_total (query : string) : exists results, search w query = Ret results.
Proof.
  destruct (_is_sql query) eqn:E.
  - rewrite (search_sql_path _ E). eauto.
  - destruct (search_metadata_path query E)
      as (hits & rest & _ & [[S' _]|(e & S' & _)]); eauto.
Qed.

End Tools.

(** ** Point lookups of [fetch] *)

Section Lookups.

Variable w : world.

#[local] Arguments Ascii.eqb : simpl never.

Lemma lookup_none (l : list uc_object) (name : string) :
  lookup l name = None <-> forall o, In o l -> obj_name o <> name.
Proof.
  unfold lookup. split.
  - intros H o Ho. apply String.eqb_neq. exact (find_none _ _ H o Ho).
  - intros H. induction l as [|x l IH]; cbn [find]; [reflexivity|].
    destruct (obj_name x =? name) eqn:E.
    + apply String.eqb_eq in E. elim (H x (or_introl eq_refl) E).
    + apply IH. intros o Ho. apply H. now right.
Qed.

Lemma lookup_first (before after : list uc_object) (o : uc_object) :
  (forall x, In x before -> obj_name x <> obj_name o) ->
  lookup (before ++ o :: after) (obj_name o) = Some o.
Proof.
  intros H. unfold lookup. induction before as [|x before IH]; cbn [app find].
  - now rewrite String.eqb_refl.
  - destruct (obj_name x =? obj_name o) eqn:E.
    + apply String.eqb_eq in E. elim (H x (or_introl eq_refl) E).
    + apply IH. intros y Hy. apply H. now right.
Qed.

Lemma lookup_listed (l : list uc_object) (o : uc_object) :
  In o l -> exists o', lookup l (obj_name o) = Some o' /\ obj_name o' = obj_name o.
Proof.
  intros H. destruct (lookup l (obj_name o)) as [o'|] eqn:E.
  - exists o'. split; [reflexivity|]. unfold lookup in E.
    apply find_some in E as [_ E]. now apply String.eqb_eq in E.
  - elim (proj1 (lookup_none l _) E o H). reflexivity.
Qed.

Lemma fetch_catalog (name : string) :
  fetch w ("catalog::" ++ name) =
  match list_catalogs w with
  | Ret cats =>
      match lookup (items cats) name with
      | Some cat => Ret (found ("catalog::" ++ name) ("Catalog: " ++ name) cat)
      | None => Ret (not_found ("catalog::" ++ name))
      end
  | Raise exc => Ret (Error (str_exn exc))
  end.
Proof.
  assert (Hcut : cut "::" ("catalog::" ++ name) = Some ("catalog", name)).
  { simpl. now rewrite startswith_nil. }
  rewrite (fetch_dispatch _ _ _ _ Hcut) by discriminate.
  unfold fetch_metadata. change ("catalog" =? "catalog") with true. cbv iota.
  destruct (list_catalogs w) as [cats|e]; cbn [bind try_except].
  - destruct (lookup (items cats) name); reflexivity.
  - destruct e; reflexivity.
Qed.

Lemma fetch_schema (cat sch : string) :
  contains "." cat = false ->
  let name := cat ++ "." ++ sch in
  fetch w ("schema::" ++ name) =
  match list_schemas w cat with
  | Ret schs =>
      match lookup (items schs) sch with
      | Some s => Ret (found ("schema::" ++ name) ("Schema: " ++ name) s)
      | None => Ret (not_found ("schema::" ++ name))
      end
  | Raise exc => Ret (Error (str_exn exc))
  end.
Proof.
  intros Hc name.
  assert (Hcut : cut "::" ("schema::" ++ name) = Some ("schema", name)).
  { simpl. now rewrite startswith_nil. }
  rewrite (fetch_dispatch _ _ _ _ Hcut) by discriminate.
  unfold fetch_metadata.
  change ("schema" =? "catalog") with false.
  change ("schema" =? "schema") with true. cbv iota.
  unfold name at 1. change ("." ++ sch) with (String "." sch).
  unfold split. rewrite (cut_dot _ _ Hc). cbn [unpack2 bind].
  destruct (list_schemas w cat) as [schs|e]; cbn [bind try_except].
  - destruct (lookup (items schs) sch); reflexivity.
  - destruct e; reflexivity.
Qed.

End Lookups.

(** ** Where "Bad ID format" can come from *)

Section BadId.

Variable w : world.

#[local] Arguments Ascii.eqb : simpl never.

Lemma cut_found (sep s : string) :
  contains sep s = true -> exists a b, cut sep s = Some (a, b).
Proof.
  induction s as [|c s IH]; intros H; cbn [contains] in H; cbn [cut].
  - rewrite orb_false_r in H. rewrite H. eauto.
  - destruct (startswith (String c s) sep) eqn:E; [eauto|].
    cbn [orb] in H. destruct (IH H) as (a & b & ->). eauto.
Qed.

Lemma is_Exception_all (e : exn) : is_Exception e = true.
Proof. now destruct e. Qed.

Lemma handled {A} (e : exn) (handler : exn -> outcome A) :
  try_except (Raise e) is_Exception handler = handler e.
Proof. cbn [try_except]. now rewrite is_Exception_all. Qed.

Lemma fetch_query_not_bad_id (rid sql : string) :
  fetch_query w rid sql <> Ret (Error "Bad ID format").
Proof.
  unfold fetch_query. destruct (_run_sql w sql default_wait) as [res|e];
    cbn [bind].
  - destruct (manifest res) as [m|]; cbn [bind];
      [destruct (total_row_count m); cbn [bind]|];
      rewrite ?handled; cbn; discriminate.
  - rewrite handled. cbn. discriminate.
Qed.

Lemma unpack2_message (l : list string) (e : exn) :
  unpack2 l = Raise e -> str_exn e <> "Bad ID format".
Proof.
  destruct l as [|a [|b [|c l]]]; cbn [unpack2]; intros H; inversion H;
    cbn; discriminate.
Qed.

Lemma unpack3_message (l : list string) (e : exn) :
  unpack3 l = Raise e -> str_exn e <> "Bad ID format".
Proof.
  destruct l as [|a [|b [|c [|d l]]]]; cbn [unpack3]; intros H; inversion H;
    cbn; discriminate.
Qed.

(** In the metadata branch the text can only be the message of a failed
    listing call. *)
Lemma fetch_metadata_bad_id (rid kind name : string) :
  fetch_metadata w rid kind name = Ret (Error "Bad ID format") ->
  exists exc, str_exn exc = "Bad ID format"
    /\ (list_catalogs w = Raise exc
        \/ (exists cat, list_schemas w cat = Raise exc)
        \/ (exists cat sch, list_tables w cat sch = Raise exc)).
Proof.
  unfold fetch_metadata, not_found, found.
  destruct (kind =? "catalog").
  { destruct (list_catalogs w) as [cats|e] eqn:L; cbn [bind].
    - destruct (lookup (items cats) name); cbn; discriminate.
    - rewrite handled. intros H. inversion H. exists e. auto. }
  destruct (kind =? "schema").
  { destruct (unpack2 (split "." 1 name)) as [[cat sch]|e] eqn:U; cbn [bind].
    - destruct (list_schemas w cat) as [schs|e] eqn:L; cbn [bind].
      + destruct (lookup (items schs) sch); cbn; discriminate.
      + rewrite handled. intros H. inversion H. exists e. eauto.
    - rewrite handled. intros H. inversion H.
      elim (unpack2_message _ _ U). assumption. }
  destruct (kind =? "table").
  { destruct (unpack3 (split "." 2 name)) as [[[cat sch] tbl]|e] eqn:U;
      cbn [bind].
    - destruct (list_tables w cat sch) as [tbls|e] eqn:L; cbn [bind].
      + destruct (lookup (items tbls) tbl); cbn; discriminate.
      + rewrite handled. intros H. inversion H. exists e. eauto 6.
    - rewrite handled. intros H. inversion H.
      elim (unpack3_message _ _ U). assumption. }
  cbn. discriminate.
Qed.

Lemma fetch_bad_id_origin (rid : string) :
  fetch w rid = Ret (Error "Bad ID format") ->
  contains "::" rid = false
  \/ exists exc, str_exn exc = "Bad ID format"
       /\ (list_catalogs w = Raise exc
           \/ (exists cat, list_schemas w cat = Raise exc)
           \/ (exists cat sch, list_tables w cat sch = Raise exc)).
Proof.
  intros H. destruct (contains "::" rid) eqn:C; [right|now left].
  destruct (startswith rid "query::") eqn:Q.
  - apply startswith_split in Q. rewrite Q, fetch_query_id in H.
    elim (fetch_query_not_bad_id _ _ H).
  - destruct (cut_found _ _ C) as (kind & name & E).
    unfold fetch, split in H. rewrite Q, E in H. cbn [unpack2 bind try_except] in H.
    exact (fetch_metadata_bad_id _ _ _ H).
Qed.

Lemma no_separator_malformed (rid : string) :
  contains "::" rid = false -> Spec.malformed rid = true.
Proof.
  intros H. unfold Spec.malformed, Spec.decode. now rewrite (cut_none _ _ H).
Qed.

End BadId.

(** ** How the metadata search ends *)

Section SearchEnd.

Lemma ends_when (b : bool) (e : entry) : ends (when b (append e)) None.
Proof. intros rs. now destruct b. Qed.

Lemma ends_seq (m k : M unit) (fm fk : option exn) :
  ends m fm -> ends k fk ->
  ends (mbind m (fun _ => k))
    (match fm with Some e => Some e | None => fk end).
Proof.
  intros Hm Hk rs. unfold mbind. specialize (Hm rs).
  destruct (m rs) as [o rs']. cbn [fst] in Hm. subst o.
  destruct fm as [e|]; [reflexivity | apply Hk].
Qed.

Lemma ends_call {A} (o : outcome A) (k : A -> M unit) (f : A -> option exn) :
  (forall a, ends (k a) (f a)) ->
  ends (mbind (call o) k)
    (match o with Ret a => f a | Raise e => Some e end).
Proof.
  intros Hk rs. unfold mbind, call. destruct o as [a|e]; [apply Hk|reflexivity].
Qed.

Lemma ends_for_each {A} (l : list A) (body : A -> M unit) (f : A -> option exn) :
  (forall x, ends (body x) (f x)) -> ends (for_each l body) (first_raise f l).
Proof.
  intros Hb. induction l as [|x l IH]; cbn [for_each first_raise].
  - now intros rs.
  - exact (ends_seq _ _ _ _ (Hb x) IH).
Qed.

Lemma ends_each_when {A} (l : list A) (b : A -> bool) (e : A -> entry) :
  ends (for_each l (fun x => when (b x) (append (e x)))) None.
Proof.
  induction l as [|x l IH]; cbn [for_each].
  - now intros rs.
  - exact (ends_seq _ _ None None (ends_when (b x) (e x)) IH).
Qed.

Variable w : world.

Lemma search_metadata_ends (qlc : string) :
  ends (search_metadata w qlc) (first_failure w).
Proof.
  unfold search_metadata, first_failure.
  apply (ends_call (list_catalogs w) _
           (fun cats => first_raise (fun cat =>
              match list_schemas w (obj_name cat) with
              | Raise e => Some e
              | Ret schs =>
                  first_raise (fun sch =>
                    match list_tables w (obj_name cat) (obj_name sch) with
                    | Raise e => Some e
                    | Ret _ => None
                    end) (items schs)
              end) (items cats))).
  intros cats.
  refine (ends_seq _ _ None _ (ends_each_when _ _ _) _).
  apply ends_for_each. intros cat.
  apply (ends_call (list_schemas w (obj_name cat)) _
           (fun schs => first_raise (fun sch =>
              match list_tables w (obj_name cat) (obj_name sch) with
              | Raise e => Some e
              | Ret _ => None
              end) (items schs))).
  intros schs. apply ends_for_each. intros sch.
  refine (ends_seq _ _ None _ (ends_when _ _) _).
  apply (ends_call (list_tables w (obj_name cat) (obj_name sch)) _
           (fun _ => None)).
  intros tbls. apply ends_each_when.
Qed.

Lemma runs_seq (m k : M unit) (a b : trace) :
  runs m a -> runs k b -> runs (mbind m (fun _ => k)) (then_trace a b).
Proof.
  intros Hm Hk rs. unfold mbind, then_trace. rewrite Hm.
  destruct a as [ha [e|]]; cbn [fst snd]; [reflexivity|].
  rewrite Hk. now rewrite app_assoc.
Qed.

Lemma runs_call {A} (o : outcome A) (k : A -> M unit) (t : A -> trace) :
  (forall a, runs (k a) (t a)) ->
  runs (mbind (call o) k)
    (match o with Ret a => t a | Raise e => ([], Some e) end).
Proof.
  intros Hk rs. unfold mbind, call. destruct o as [a|e]; [apply Hk|].
  cbn [fst snd]. now rewrite app_nil_r.
Qed.

Lemma runs_for_each {A} (l : list A) (body : A -> M unit) (t : A -> trace) :
  (forall x, runs (body x) (t x)) -> runs (for_each l body) (each_trace t l).
Proof.
  intros Hb. induction l as [|x l IH]; cbn [for_each each_trace].
  - intros rs. cbn [fst snd]. unfold mret. now rewrite app_nil_r.
  - now apply runs_seq.
Qed.

Lemma runs_when (b : bool) (e : entry) :
  runs (when b (append e)) (if b then [e] else [], None).
Proof.
  intros rs. destruct b; cbn [when fst snd]; [reflexivity|].
  unfold mret. now rewrite app_nil_r.
Qed.

Lemma runs_each_when {A} (l : list A) (b : A -> bool) (e : A -> entry) :
  runs (for_each l (fun x => when (b x) (append (e x))))
    (map e (filter b l), None).
Proof.
  induction l as [|x l IH]; cbn [for_each filter map].
  - intros rs. cbn [fst snd]. unfold mret. now rewrite app_nil_r.
  - intros rs. unfold mbind. rewrite (runs_when (b x) (e x) rs).
    cbn [fst snd]. rewrite IH. cbn [fst snd].
    destruct (b x); cbn [map app]; now rewrite <- app_assoc.
Qed.

(** The loop of [search] gathers what [gathered] says. *)
Lemma search_metadata_runs (query : string) :
  runs (search_metadata w (lower query)) (gathered w query).
Proof.
  unfold search_metadata, gathered.
  apply (runs_call (list_catalogs w) _
           (fun cats =>
              then_trace
                (map catalog_hit
                   (filter (fun cat => Spec.matches query (obj_name cat))
                      (items cats)), None)
                (each_trace (fun cat =>
                   match list_schemas w (obj_name cat) with
                   | Raise e => ([], Some e)
                   | Ret schs =>
                       each_trace (fun sch =>
                         then_trace
                           (if Spec.matches query (Spec.fq_schema cat sch)
                            then [schema_hit (Spec.fq_schema cat sch) sch]
                            else [], None)
                           (match list_tables w (obj_name cat) (obj_name sch) with
                            | Raise e => ([], Some e)
                            | Ret tbls =>
                                (map (fun tbl =>
                                        table_hit (Spec.fq_table cat sch tbl) tbl)
                                   (filter (fun tbl =>
                                      Spec.matches query
                                        (Spec.fq_table cat sch tbl))
                                      (items tbls)), None)
                            end)) (items schs)
                   end) (items cats)))).
  intros cats. apply runs_seq; [apply runs_each_when|].
  apply runs_for_each. intros cat.
  apply (runs_call (list_schemas w (obj_name cat)) _
           (fun schs =>
              each_trace (fun sch =>
                then_trace
                  (if Spec.matches query (Spec.fq_schema cat sch)
                   then [schema_hit (Spec.fq_schema cat sch) sch]
                   else [], None)
                  (match list_tables w (obj_name cat) (obj_name sch) with
                   | Raise e => ([], Some e)
                   | Ret tbls =>
                       (map (fun tbl =>
                               table_hit (Spec.fq_table cat sch tbl) tbl)
                          (filter (fun tbl =>
                             Spec.matches query (Spec.fq_table cat sch tbl))
                             (items tbls)), None)
                   end)) (items schs))).
  intros schs. apply runs_for_each. intros sch.
  apply runs_seq; [apply runs_when|].
  apply (runs_call (list_tables w (obj_name cat) (obj_name sch)) _
           (fun tbls =>
              (map (fun tbl => table_hit (Spec.fq_table cat sch tbl) tbl)
                 (filter (fun tbl =>
                    Spec.matches query (Spec.fq_table cat sch tbl))
                    (items tbls)), None))).
  intros tbls.
  exact (runs_each_when (items tbls)
           (fun tbl => Spec.matches query (Spec.fq_table cat sch tbl))
           (fun tbl => table_hit (Spec.fq_table cat sch tbl) tbl)).
Qed.

(** What is gathered is the beginning of the specified order, all of it
    when no call fails, and it stops at the first failing call. *)
Lemma gathered_prefix (query : string) :
  snd (gathered w query) = first_failure w
  /\ exists rest,
       Spec.expected_order w query = (fst (gathered w query) ++ rest)%list
       /\ (first_failure w = None -> rest = []).
Proof.
  pose proof (search_metadata_runs query []) as Hr.
  pose proof (search_metadata_ends (lower query) []) as He.
  destruct (search_metadata_yields w query []) as (o & out & E & (rest & P) & R & _).
  cbn [app] in Hr, E. rewrite E in Hr, He. cbn [fst] in He.
  inversion Hr as [[Ho Hout]]. rewrite <- Hout.
  assert (S' : snd (gathered w query) = first_failure w).
  { rewrite He in Ho.
    destruct (snd (gathered w query)), (first_failure w); congruence. }
  split; [exact S'|]. exists rest. split; [exact P|].
  intros N. rewrite N in He. specialize (R tt He).
  assert (Q : (out ++ [] = out ++ rest)%list) by (rewrite app_nil_r; congruence).
  now apply app_inv_head in Q.
Qed.

Lemma search_gathered (query : string) :
  _is_sql query = false ->
  search w query =
  Ret (fst (gathered w query)
       ++ match snd (gathered w query) with
          | Some e => [Error (str_exn e)]
          | None => []
          end)%list.
Proof.
  intros Hq. unfold search. rewrite Hq, (search_metadata_runs query []).
  cbn [app]. destruct (snd (gathered w query)) as [e|].
  - now rewrite is_Exception_all.
  - now rewrite app_nil_r.
Qed.

End SearchEnd.

(** ** The claims of the specification *)

(** C1: the specification wants [fetch] of a query id, against a service
    that reports the statement failed with the message "syntax error", to
    return the error result with one "SQL execution failed: " prefix.  The
    program returns it with two: [_run_sql] puts the prefix into the
    message of the exception it raises, and the handler of [fetch] puts it
    in front of that message again. *)
Theorem failed_statement_prefixed_twice :
  get_statement Sample.fails (Some "stmt-1") 0 =
    Ret (Sample.status "FAILED" (Some "syntax error") None None)
  /\ fetch Sample.fails "query::BAD" =
     Ret (Error "SQL execution failed: SQL execution failed: syntax error")
  /\ fetch Sample.fails "query::BAD" <>
     Ret (Error "SQL execution failed: syntax error").
Proof.
  split; [reflexivity|].
  assert (E : fetch Sample.fails "query::BAD" =
              Ret (Error "SQL execution failed: SQL execution failed: syntax error")).
  { exact (fetch_failed_statement Sample.fails "BAD" (Some "stmt-1") _
             eq_refl eq_refl eq_refl). }
  split; [exact E|]. rewrite E. discriminate.
Qed.

(** C2: for a text the classifier takes for SQL because its left-trimmed
    form starts with the marker [sql:], the specification wants the marker
    removed before the id is built.  [search] looks for the marker in the
    untrimmed text: with whitespace in front of it the marker stays in the
    SQL, in the id and in the metadata. *)
Theorem search_keeps_marker_after_whitespace :
  _is_sql " sql:select 1" = true
  /\ Spec.normalized_sql " sql:select 1" = "select 1"
  /\ search Sample.pending " sql:select 1" =
     Ret [Result "query::sql:select 1" "SQL query preview" "sql:select 1"
            (MSql "sql:select 1")].
Proof. repeat split; reflexivity. Qed.

(** C3, as the specification states it, fails: an id with an unknown kind
    tag, a table id of four parts and a schema id without a dot are all
    malformed for the specified decoder, and [fetch] answers none of them
    with "Bad ID format". *)
Lemma malformed_ids_not_rejected :
  Spec.malformed "foo::bar" = true
  /\ fetch Sample.pending "foo::bar" = Ret (Error "Resource 'foo::bar' not found")
  /\ Spec.malformed "table::main.sales.a.b" = true
  /\ fetch Sample.pending "table::main.sales.a.b" =
     Ret (Result "table::main.sales.a.b" "Table: main.sales.a.b" ""
            (MObject (Sample.obj "a.b")))
  /\ Spec.malformed "schema::main" = true
  /\ fetch Sample.pending "schema::main" <> Ret (Error "Bad ID format").
Proof.
  repeat split; try reflexivity.
  vm_compute. discriminate.
Qed.

(** C3, amended: [fetch] answers "Bad ID format" exactly when the id has
    no [::] separator, as long as no listing call fails with that very
    message; such an id is malformed for the specified decoder.  The other
    malformed shapes are answered otherwise: an unknown kind tag gives the
    not-found result, and a table id is split at its first two dots only,
    so that whatever follows them, dots included, is the table name that
    is looked up. *)
Theorem fetch_bad_id_format (w : world) (rid kind name cat sch tbl : string) :
  ((forall exc, str_exn exc = "Bad ID format" ->
      list_catalogs w <> Raise exc
      /\ (forall c, list_schemas w c <> Raise exc)
      /\ (forall c s, list_tables w c s <> Raise exc)) ->
   (fetch w rid = Ret (Error "Bad ID format") <-> contains "::" rid = false))
  /\ (contains "::" rid = false ->
      fetch w rid = Ret (Error "Bad ID format") /\ Spec.malformed rid = true)
  /\ (cut "::" rid = Some (kind, name) ->
      kind <> "query" -> kind <> "catalog" -> kind <> "schema" ->
      kind <> "table" ->
      fetch w rid = Ret (Error ("Resource '" ++ rid ++ "' not found")))
  /\ (contains "." cat = false -> contains "." sch = false ->
      fetch w ("table::" ++ cat ++ "." ++ sch ++ "." ++ tbl) =
      match list_tables w cat sch with
      | Ret tbls =>
          match lookup (items tbls) tbl with
          | Some t =>
              Ret (Result ("table::" ++ cat ++ "." ++ sch ++ "." ++ tbl)
                     ("Table: " ++ cat ++ "." ++ sch ++ "." ++ tbl)
                     (comment_of t) (MObject t))
          | None =>
              Ret (Error ("Resource '"
                          ++ ("table::" ++ cat ++ "." ++ sch ++ "." ++ tbl)
                          ++ "' not found"))
          end
      | Raise exc => Ret (Error (str_exn exc))
      end).
Proof.
  split; [|split; [|split]].
  - intros Hw. split; [|apply fetch_no_separator].
    intros H. destruct (fetch_bad_id_origin w rid H) as [C|(exc & M & D)];
      [exact C|].
    destruct (Hw exc M) as (Hc & Hs & Ht).
    destruct D as [D|[(c & D)|(c & s & D)]];
      [elim (Hc D) | elim (Hs c D) | elim (Ht c s D)].
  - intros H. split; [now apply fetch_no_separator|
                      now apply no_separator_malformed].
  - apply fetch_unknown_kind.
  - intros Hc Hs. exact (fetch_table w cat sch tbl Hc Hs).
Qed.

Lemma fetch_bad_id_format_witness :
  (fetch Sample.pending "garbage" = Ret (Error "Bad ID format")
   <-> contains "::" "garbage" = false)
  /\ (contains "::" "garbage" = false
      /\ fetch Sample.pending "garbage" = Ret (Error "Bad ID format")
      /\ Spec.malformed "garbage" = true)
  /\ (cut "::" "foo::bar" = Some ("foo", "bar")
      /\ fetch Sample.pending "foo::bar" =
         Ret (Error "Resource 'foo::bar' not found"))
  /\ (contains "." "main" = false /\ contains "." "sales" = false
      /\ fetch Sample.pending "table::main.sales.a.b" =
         Ret (Result "table::main.sales.a.b" "Table: main.sales.a.b" ""
                (MObject (Sample.obj "a.b")))).
Proof.
  split; [|split; [|split]].
  - apply (proj1 (fetch_bad_id_format Sample.pending "garbage" "" "" "" "" "")).
    intros exc _. split; [discriminate|]. split.
    + intros c. cbn. destruct (c =? "main"); discriminate.
    + intros c s. cbn.
      destruct ((c =? "main") && (s =? "sales"));
        [discriminate | destruct ((c =? "main") && (s =? "hr")); discriminate].
  - split; [reflexivity|].
    apply (proj1 (proj2 (fetch_bad_id_format Sample.pending "garbage"
                           "" "" "" "" ""))).
    reflexivity.
  - split; [reflexivity|].
    apply (proj1 (proj2 (proj2 (fetch_bad_id_format Sample.pending "foo::bar"
                                  "foo" "bar" "" "" ""))));
      [reflexivity | discriminate | discriminate | discriminate | discriminate].
  - split; [reflexivity|]. split; [reflexivity|].
    apply (proj2 (proj2 (proj2 (fetch_bad_id_format Sample.pending ""
                                  "" "" "main" "sales" "a.b"))));
      reflexivity.
Defined.

(** C4: the id that [search] builds for a SQL text is "query::" followed
    by the text; [fetch] takes it for a query id, splits it at its first
    [::] only, and runs the text after it, which is the SQL text unchanged
    whatever [::] or dots it contains. *)
Theorem query_id_round_trip (w : world) (sql : string) :
  match sql_stub sql with
  | Result id _ _ md =>
      id = "query::" ++ sql
      /\ md = MSql sql
      /\ startswith id "query::" = true
      /\ split "::" 1 id = ["query"; sql]
      /\ index (split "::" 1 id) 1 = Ret sql
      /\ fetch w id = fetch_query w id sql
  | Error _ => False
  end.
Proof.
  unfold sql_stub. repeat split.
  - apply startswith_app.
  - apply split_query.
  - now rewrite split_query.
  - apply fetch_query_id.
Qed.

(** C5: in the poll loop a status in state SUCCEEDED without a result
    payload is not returned: the loop goes on to the next attempt with one
    iteration less to go.  What [_run_sql] returns is in state SUCCEEDED
    and has a result payload. *)
Theorem succeeded_without_result_keeps_polling (w : world)
    (st_id : option string) (n k : nat) (status : status_doc)
    (sql : string) (wait : Z) (returned : status_doc) :
  (get_statement w st_id k = Ret status ->
   state status = "SUCCEEDED" -> result status = None ->
   poll w st_id (S n) k = poll w st_id n (S k))
  /\ (_run_sql w sql wait = Ret returned ->
      state returned = "SUCCEEDED"
      /\ exists r, result returned = Some r /\ truthy r = true).
Proof.
  split.
  - intros Hg Hs Hr. apply (poll_continues w st_id n k status Hg).
    unfold Spec.terminal, has_result. now rewrite Hs, Hr.
  - intros H. destruct (run_sql_returns w sql wait returned H) as [Hs Hr].
    split; [exact Hs|]. now apply has_result_present.
Qed.

Lemma succeeded_without_result_keeps_polling_witness :
  (get_statement Sample.late_result (Some "stmt-1") 0 =
     Ret (Sample.status "SUCCEEDED" None (Some 3%Z) None)
   /\ poll Sample.late_result (Some "stmt-1") 15 0 =
      poll Sample.late_result (Some "stmt-1") 14 1)
  /\ (_run_sql Sample.late_result "SELECT 1" 15 =
        Ret (Sample.status "SUCCEEDED" None (Some 3%Z) (Some Sample.rows3))
      /\ exists r, Some Sample.rows3 = Some r /\ truthy r = true).
Proof.
  split.
  - split; [reflexivity|].
    apply (proj1 (succeeded_without_result_keeps_polling Sample.late_result
                    (Some "stmt-1") 14 0
                    (Sample.status "SUCCEEDED" None (Some 3%Z) None)
                    "" 0 (Sample.status "" None None None)));
      reflexivity.
  - split; [reflexivity|].
    apply (proj2 (succeeded_without_result_keeps_polling Sample.late_result
                    None 0 0 (Sample.status "" None None None)
                    "SELECT 1" 15
                    (Sample.status "SUCCEEDED" None (Some 3%Z)
                       (Some Sample.rows3)))).
    reflexivity.
Defined.

(** C6: when the submission is accepted and none of the [wait] polls
    reports a terminal status, [_run_sql] raises [TimeoutError]; under the
    wait budget of [fetch] the caller gets an error result, not the
    exception. *)
Theorem poll_budget_exhausted (w : world) (sql : string) (wait : Z)
    (st_id : option string) :
  post_statement w (submission w sql wait) = Ret st_id ->
  (forall k, (k < Z.to_nat wait)%nat -> exists status,
      get_statement w st_id k = Ret status /\ Spec.terminal status = false) ->
  _run_sql w sql wait = Raise (TimeoutError "SQL timed out after wait_timeout")
  /\ (wait = default_wait ->
      fetch w ("query::" ++ sql) =
      Ret (Error "SQL execution failed: SQL timed out after wait_timeout")).
Proof.
  intros Hp Hk.
  assert (E : _run_sql w sql wait =
              Raise (TimeoutError "SQL timed out after wait_timeout")).
  { unfold _run_sql. rewrite Hp. cbn [bind]. apply poll_times_out. exact Hk. }
  split; [exact E|]. intros ->.
  rewrite fetch_query_id. now rewrite (fetch_query_raise _ _ _ _ E).
Qed.

Lemma poll_budget_exhausted_witness :
  _run_sql Sample.pending "SELECT 1" 15 =
    Raise (TimeoutError "SQL timed out after wait_timeout")
  /\ fetch Sample.pending "query::SELECT 1" =
     Ret (Error "SQL execution failed: SQL timed out after wait_timeout").
Proof.
  split.
  - apply (poll_budget_exhausted Sample.pending "SELECT 1" 15 (Some "stmt-1"));
      [reflexivity|].
    intros k _. exists (Sample.status "RUNNING" None None None).
    split; reflexivity.
  - apply (poll_budget_exhausted Sample.pending "SELECT 1" 15 (Some "stmt-1"));
      [reflexivity| |reflexivity].
    intros k _. exists (Sample.status "RUNNING" None None None).
    split; reflexivity.
Defined.

(** C7: [search] and [fetch] return for every input and every behaviour of
    the workspace, they never raise, and each error becomes an error
    value.  A metadata search returns the hits gathered up to the first
    failing call, in their order, followed by the one error entry with the
    message of that call's exception; without a failing call it returns
    the hits alone.  [fetch] answers an id without separator with "Bad ID
    format", an exception of the engine with its message behind the
    prefix, a failing listing call with its message, and a name that is
    not listed with the not-found error. *)
Theorem tools_never_raise (w : world) (text sql name cat sch tbl : string)
    (exc : exn) :
  (exists results, search w text = Ret results)
  /\ (exists r, fetch w text = Ret r)
  /\ (_is_sql text = false ->
      search w text =
        Ret (fst (gathered w text)
             ++ match first_failure w with
                | Some e => [Error (str_exn e)]
                | None => []
                end)%list
      /\ snd (gathered w text) = first_failure w
      /\ exists rest,
           Spec.expected_order w text = (fst (gathered w text) ++ rest)%list
           /\ (first_failure w = None -> rest = []))
  /\ (contains "::" text = false -> fetch w text = Ret (Error "Bad ID format"))
  /\ (_run_sql w sql default_wait = Raise exc ->
      fetch w ("query::" ++ sql) =
      Ret (Error ("SQL execution failed: " ++ str_exn exc)))
  /\ fetch w ("catalog::" ++ name) =
     match list_catalogs w with
     | Raise e => Ret (Error (str_exn e))
     | Ret cats =>
         match lookup (items cats) name with
         | None =>
             Ret (Error ("Resource '" ++ ("catalog::" ++ name) ++ "' not found"))
         | Some c =>
             Ret (Result ("catalog::" ++ name) ("Catalog: " ++ name)
                    (comment_of c) (MObject c))
         end
     end
  /\ (contains "." cat = false ->
      fetch w ("schema::" ++ cat ++ "." ++ sch) =
      match list_schemas w cat with
      | Raise e => Ret (Error (str_exn e))
      | Ret schs =>
          match lookup (items schs) sch with
          | None =>
              Ret (Error ("Resource '" ++ ("schema::" ++ cat ++ "." ++ sch)
                          ++ "' not found"))
          | Some s =>
              Ret (Result ("schema::" ++ cat ++ "." ++ sch)
                     ("Schema: " ++ cat ++ "." ++ sch) (comment_of s) (MObject s))
          end
      end)
  /\ (contains "." cat = false -> contains "." sch = false ->
      fetch w ("table::" ++ cat ++ "." ++ sch ++ "." ++ tbl) =
      match list_tables w cat sch with
      | Raise e => Ret (Error (str_exn e))
      | Ret tbls =>
          match lookup (items tbls) tbl with
          | None =>
              Ret (Error ("Resource '"
                          ++ ("table::" ++ cat ++ "." ++ sch ++ "." ++ tbl)
                          ++ "' not found"))
          | Some t =>
              Ret (Result ("table::" ++ cat ++ "." ++ sch ++ "." ++ tbl)
                     ("Table: " ++ cat ++ "." ++ sch ++ "." ++ tbl)
                     (comment_of t) (MObject t))
          end
      end).
Proof.
  split; [apply search_total|]. split; [apply fetch_total|].
  split.
  { intros Hq. destruct (gathered_prefix w text) as [S' P].
    split; [|split; [exact S' | exact P]].
    rewrite <- S'. now apply search_gathered. }
  split; [apply fetch_no_separator|].
  split; [|split; [|split]].
  - intros H. rewrite fetch_query_id. now apply fetch_query_raise.
  - rewrite fetch_catalog. destruct (list_catalogs w) as [cats|e]; [|reflexivity].
    now destruct (lookup (items cats) name).
  - intros Hc. rewrite (fetch_schema w cat sch Hc).
    destruct (list_schemas w cat) as [schs|e]; [|reflexivity].
    now destruct (lookup (items schs) sch).
  - intros Hc Hs. rewrite (fetch_table w cat sch tbl Hc Hs).
    destruct (list_tables w cat sch) as [tbls|e]; [|reflexivity].
    now destruct (lookup (items tbls) tbl).
Qed.

Lemma tools_never_raise_witness :
  (_is_sql "main" = false
   /\ first_failure (Sample.flaky Sample.pending) =
      Some (RequestException "503 Server Error")
   /\ search (Sample.flaky Sample.pending) "main" =
      Ret [catalog_hit (Sample.obj "main");
           schema_hit "main.sales" (Sample.obj "sales");
           table_hit "main.sales.orders" (Sample.obj "orders");
           table_hit "main.sales.a.b" (Sample.obj "a.b");
           schema_hit "main.hr" (Sample.obj "hr");
           Error "503 Server Error"])
  /\ (contains "::" "garbage" = false
      /\ fetch Sample.pending "garbage" = Ret (Error "Bad ID format"))
  /\ (_run_sql Sample.pending "SELECT 1" default_wait =
        Raise (TimeoutError "SQL timed out after wait_timeout")
      /\ fetch Sample.pending "query::SELECT 1" =
         Ret (Error "SQL execution failed: SQL timed out after wait_timeout"))
  /\ (contains "." "main" = false
      /\ fetch Fixture.twins "schema::main.sales" = Ret (Error "503 Server Error"))
  /\ (contains "." "main" = false /\ contains "." "sales" = false
      /\ fetch Sample.pending "table::main.sales.unknown_table" =
         Ret (Error "Resource 'table::main.sales.unknown_table' not found")).
Proof.
  split; [|split; [|split; [|split]]].
  - split; [reflexivity|]. split; [reflexivity|].
    exact (proj1 (proj1 (proj2 (proj2
             (tools_never_raise (Sample.flaky Sample.pending)
                "main" "" "" "" "" "" (KeyError "")))) eq_refl)).
  - split; [reflexivity|].
    apply (proj1 (proj2 (proj2 (proj2 (tools_never_raise Sample.pending
                                         "garbage" "" "" "" "" ""
                                         (KeyError "")))))).
    reflexivity.
  - split; [reflexivity|].
    apply (proj1 (proj2 (proj2 (proj2 (proj2
             (tools_never_raise Sample.pending "" "SELECT 1" "" "" "" ""
                (TimeoutError "SQL timed out after wait_timeout"))))))).
    reflexivity.
  - split; [reflexivity|].
    apply (proj1 (proj2 (proj2 (proj2 (proj2 (proj2 (proj2
             (tools_never_raise Fixture.twins "" "" "" "main" "sales" ""
                (KeyError ""))))))))).
    reflexivity.
  - split; [reflexivity|]. split; [reflexivity|].
    apply (proj2 (proj2 (proj2 (proj2 (proj2 (proj2 (proj2
             (tools_never_raise Sample.pending "" "" "" "main" "sales"
                "unknown_table" (KeyError ""))))))))); reflexivity.
Defined.

(** C8: for a query that is not SQL the results come in the specified
    order: the matching catalogs in listing order, then, catalog by catalog
    in that order, each matching schema followed at once by its matching
    tables, a match being a case-insensitive substring match against the
    fully-qualified name.  When every listing call succeeds the results are
    that sequence; when one fails they are its beginning, up to the failing
    call, and the error entry. *)
Theorem search_results_order (w : world) (query : string) :
  _is_sql query = false ->
  (Spec.all_listed w = true -> search w query = Ret (Spec.expected_order w query))
  /\ exists hits rest,
       Spec.expected_order w query = (hits ++ rest)%list
       /\ (search w query = Ret hits
           \/ exists msg, search w query = Ret (hits ++ [Error msg])%list).
Proof.
  intros H. split; [now apply search_all_listed|].
  destruct (search_metadata_path w query H) as (hits & rest & P & D).
  exists hits, rest. split; [exact P|].
  destruct D as [[S' _]|(e & S' & _)]; [now left | right; now exists (str_exn e)].
Qed.

Lemma search_results_order_witness :
  _is_sql "SALES" = false
  /\ Spec.all_listed Sample.pending = true
  /\ search Sample.pending "SALES" =
     Ret [schema_hit "main.sales" (Sample.obj "sales");
          table_hit "main.sales.orders" (Sample.obj "orders");
          table_hit "main.sales.a.b" (Sample.obj "a.b")].
Proof.
  split; [reflexivity|]. split; [reflexivity|].
  exact (proj1 (search_results_order Sample.pending "SALES" eq_refl) eq_refl).
Defined.

(** C9: when the engine returns a status, which is then in state SUCCEEDED
    with a result payload, and the status has no "manifest", or its
    manifest has no "total_row_count", [fetch] returns the error result
    with the message of the [KeyError] behind the prefix of its handler. *)
Theorem missing_manifest_is_an_error (w : world) (sql : string)
    (res : status_doc) (m : manifest_doc) :
  _run_sql w sql default_wait = Ret res ->
  (state res = "SUCCEEDED" /\ exists r, result res = Some r /\ truthy r = true)
  /\ (manifest res = None ->
      fetch w ("query::" ++ sql) = Ret (Error "SQL execution failed: 'manifest'"))
  /\ (manifest res = Some m -> total_row_count m = None ->
      fetch w ("query::" ++ sql) =
      Ret (Error "SQL execution failed: 'total_row_count'")).
Proof.
  intros H. split; [|split].
  - destruct (run_sql_returns w sql _ res H) as [Hs Hr].
    split; [exact Hs | now apply has_result_present].
  - intros Hm. rewrite fetch_query_id. now apply (fetch_query_no_manifest w _ _ res).
  - intros Hm Hn. rewrite fetch_query_id.
    now apply (fetch_query_no_row_count w _ _ res m).
Qed.

Lemma missing_manifest_is_an_error_witness :
  fetch Sample.no_manifest "query::SELECT 1" =
    Ret (Error "SQL execution failed: 'manifest'")
  /\ fetch Sample.no_row_count "query::SELECT 1" =
     Ret (Error "SQL execution failed: 'total_row_count'").
Proof.
  split.
  - exact (proj1 (proj2 (missing_manifest_is_an_error Sample.no_manifest
                           "SELECT 1" _ {| total_row_count := None |} eq_refl))
             eq_refl).
  - exact (proj2 (proj2 (missing_manifest_is_an_error Sample.no_row_count
                           "SELECT 1" _ {| total_row_count := None |} eq_refl))
             eq_refl eq_refl).
Defined.

(** C10: the empty query is not SQL and matches every name, so that
    [search ""] returns one result for every catalog, schema and table the
    client enumerates, in the order of the enumeration; when a listing call
    fails, one for every object enumerated before it, and the error
    entry. *)
Theorem search_empty_query (w : world) :
  _is_sql "" = false
  /\ (forall fq, Spec.matches "" fq = true)
  /\ (Spec.all_listed w = true -> search w "" = Ret (Spec.every_object w))
  /\ exists hits rest,
       Spec.every_object w = (hits ++ rest)%list
       /\ (search w "" = Ret hits
           \/ exists msg, search w "" = Ret (hits ++ [Error msg])%list).
Proof.
  split; [reflexivity|]. split; [apply matches_empty|].
  rewrite <- expected_order_empty. split.
  - now apply search_all_listed.
  - destruct (search_metadata_path w "" eq_refl) as (hits & rest & P & D).
    exists hits, rest. split; [exact P|].
    destruct D as [[S' _]|(e & S' & _)]; [now left | right; now exists (str_exn e)].
Qed.

Lemma search_empty_query_witness :
  Spec.all_listed Sample.pending = true
  /\ search Sample.pending "" =
     Ret [catalog_hit (Sample.obj "main");
          catalog_hit (Sample.obj "dev");
          schema_hit "main.sales" (Sample.obj "sales");
          table_hit "main.sales.orders" (Sample.obj "orders");
          table_hit "main.sales.a.b" (Sample.obj "a.b");
          schema_hit "main.hr" (Sample.obj "hr");
          table_hit "main.hr.staff" (Sample.obj "staff")].
Proof.
  split; [reflexivity|].
  exact (proj1 (proj2 (proj2 (search_empty_query Sample.pending))) eq_refl).
Defined.

(** ** Further properties of the program *)

(** *** More facts about the string operations *)

Section MoreStringFacts.

#[local] Arguments Ascii.eqb : simpl never.

Lemma lower_char_idem (c : ascii) : lower_char (lower_char c) = lower_char c.
Proof. destruct c as [[] [] [] [] [] [] [] []]; reflexivity. Qed.

Lemma is_space_lower_char (c : ascii) : is_space (lower_char c) = is_space c.
Proof. destruct c as [[] [] [] [] [] [] [] []]; reflexivity. Qed.

Lemma lower_idem (s : string) : lower (lower s) = lower s.
Proof.
  induction s as [|c s IH]; cbn [lower]; [reflexivity|].
  now rewrite lower_char_idem, IH.
Qed.

Lemma lower_app (a b : string) : lower (a ++ b) = lower a ++ lower b.
Proof.
  induction a as [|c a IH]; [reflexivity|].
  change (String (lower_char c) (lower (a ++ b))
          = String (lower_char c) (lower a ++ lower b)).
  now rewrite IH.
Qed.

Lemma lower_length (s : string) : String.length (lower s) = String.length s.
Proof. induction s as [|c s IH]; cbn [lower String.length]; congruence. Qed.

Lemma lstrip_lower (s : string) : lstrip (lower s) = lower (lstrip s).
Proof.
  induction s as [|c s IH]; cbn [lower lstrip]; [reflexivity|].
  rewrite is_space_lower_char. now destruct (is_space c).
Qed.

Lemma lstrip_head (s : string) :
  lstrip s = "" \/ exists c r, lstrip s = String c r /\ is_space c = false.
Proof.
  induction s as [|c s IH]; cbn [lstrip]; [now left|].
  destruct (is_space c) eqn:E; [exact IH|]. right. now exists c, s.
Qed.

Lemma lstrip_idem (s : string) : lstrip (lstrip s) = lstrip s.
Proof.
  destruct (lstrip_head s) as [H|(c & r & H & E)]; rewrite H; cbn [lstrip];
    [reflexivity | now rewrite E].
Qed.

Lemma rstrip_idem (s : string) : rstrip (rstrip s) = rstrip s.
Proof.
  induction s as [|c s IH]; cbn [rstrip]; [reflexivity|].
  destruct (rstrip s) as [|d r] eqn:E.
  - destruct (is_space c) eqn:Ec; cbn [rstrip]; [reflexivity | now rewrite Ec].
  - cbn [rstrip] in *. now rewrite IH.
Qed.

Lemma rstrip_keeps_head (c : ascii) (s : string) :
  is_space c = false -> exists r, rstrip (String c s) = String c r.
Proof.
  intros E. cbn [rstrip]. rewrite E. destruct (rstrip s); eauto.
Qed.

Lemma strip_trimmed (s : string) :
  lstrip (strip s) = strip s /\ rstrip (strip s) = strip s.
Proof.
  unfold strip. split; [|apply rstrip_idem].
  destruct (lstrip_head s) as [H|(c & r & H & E)]; rewrite H; [reflexivity|].
  destruct (rstrip_keeps_head c r E) as (r' & ->). cbn [lstrip]. now rewrite E.
Qed.

Lemma slice_from_app (a b : string) : slice_from (String.length a) (a ++ b) = b.
Proof. induction a as [|c a IH]; [now destruct b | exact IH]. Qed.

Lemma append_assoc (a b c : string) : (a ++ b) ++ c = a ++ b ++ c.
Proof.
  induction a as [|x a IH]; [reflexivity|].
  change (String x ((a ++ b) ++ c) = String x (a ++ b ++ c)). now rewrite IH.
Qed.

Lemma append_inv_head (p a b : string) : p ++ a = p ++ b -> a = b.
Proof.
  induction p as [|c p IH]; cbn [append]; intros H; [exact H|].
  inversion H. now apply IH.
Qed.

(** A one-character separator is found right after a text without it. *)
Lemma cut_char (c : ascii) (a b : string) :
  contains (String c "") a = false ->
  cut (String c "") (a ++ String c b) = Some (a, b).
Proof.
  induction a as [|d a IH]; intros H.
  - simpl. now rewrite Ascii.eqb_refl, startswith_nil.
  - simpl in H. apply orb_false_elim in H as [H1 H2].
    rewrite startswith_nil, andb_true_r in H1.
    simpl. rewrite startswith_nil, andb_true_r, H1.
    now rewrite (IH H2).
Qed.

End MoreStringFacts.

(** *** The classifier and the SQL path of [search] *)

Section Classifier.

(** The classifier does not see leading whitespace or letter case. *)
Theorem is_sql_ignores_case_and_indent (text : string) :
  _is_sql (lstrip text) = _is_sql text /\ _is_sql (lower text) = _is_sql text.
Proof.
  unfold _is_sql. split.
  - now rewrite lstrip_idem.
  - now rewrite lstrip_lower, lower_idem.
Qed.

(** A keyword is not asked to end where the word ends: whatever follows
    it, the text is SQL, and [search] answers with the stub of the trimmed
    text without a look at the workspace. *)
Theorem keyword_prefix_is_sql (w : world) (kw rest : string) :
  In kw ["select"; "with"; "insert"; "update"; "delete"; "merge"] ->
  _is_sql (kw ++ rest) = true
  /\ search w (kw ++ rest) = Ret [sql_stub (strip (kw ++ rest))].
Proof.
  intros H. cbn [In] in H.
  assert (E : _is_sql (kw ++ rest) = true /\ sql_of_query (kw ++ rest) = strip (kw ++ rest)).
  { decompose [or] H; try contradiction; subst kw; split.
    all: unfold _is_sql, sql_of_query, startswith_any; simpl.
    all: rewrite ?startswith_nil; reflexivity. }
  destruct E as [E1 E2]. split; [exact E1|].
  unfold search. now rewrite E1, E2.
Qed.

Lemma keyword_prefix_is_sql_witness :
  In "with" ["select"; "with"; "insert"; "update"; "delete"; "merge"]
  /\ _is_sql "withdrawals" = true
  /\ search Fixture.refused "withdrawals" = Ret [sql_stub "withdrawals"].
Proof.
  split; [cbn; tauto|].
  apply (keyword_prefix_is_sql Fixture.refused "with" "drawals"). cbn; tauto.
Defined.

(** The marker is recognised in any letter case; it is removed and the
    rest is trimmed. *)
Theorem marker_any_case (w : world) (marker rest : string) :
  lower marker = "sql:" ->
  _is_sql (marker ++ rest) = true
  /\ search w (marker ++ rest) = Ret [sql_stub (strip rest)].
Proof.
  intros H.
  assert (L : String.length marker = 4%nat).
  { rewrite <- lower_length, H. reflexivity. }
  assert (P : startswith (lower (marker ++ rest)) "sql:" = true).
  { rewrite lower_app, H. apply startswith_app. }
  assert (E : _is_sql (marker ++ rest) = true).
  { unfold _is_sql. rewrite (marker_not_trimmed _ P), P. apply orb_true_r. }
  split; [exact E|]. unfold search. rewrite E. unfold sql_of_query. rewrite P.
  change (String.length "sql:") with 4%nat. rewrite <- L, slice_from_app.
  reflexivity.
Qed.

Lemma marker_any_case_witness :
  lower "SqL:" = "sql:"
  /\ _is_sql "SqL:  show tables " = true
  /\ search Fixture.refused "SqL:  show tables " = Ret [sql_stub "show tables"].
Proof.
  split; [reflexivity|].
  apply (marker_any_case Fixture.refused "SqL:" "  show tables "). reflexivity.
Defined.

(** The SQL of a stub has no whitespace at either end, and the stub does
    not depend on the workspace: no call is made for it. *)
Theorem sql_stub_trimmed (w w' : world) (query : string) :
  _is_sql query = true ->
  exists sql,
    search w query = Ret [sql_stub sql]
    /\ search w' query = Ret [sql_stub sql]
    /\ lstrip sql = sql /\ rstrip sql = sql.
Proof.
  intros H. exists (sql_of_query query).
  rewrite !search_sql_path by exact H. split; [reflexivity|].
  split; [reflexivity|].
  unfold sql_of_query. destruct (startswith (lower query) "sql:");
    apply strip_trimmed.
Qed.

Lemma sql_stub_trimmed_witness :
  _is_sql "  select 1 ; " = true
  /\ exists sql,
       search Sample.pending "  select 1 ; " = Ret [sql_stub sql]
       /\ search Fixture.refused "  select 1 ; " = Ret [sql_stub sql]
       /\ lstrip sql = sql /\ rstrip sql = sql.
Proof.
  split; [reflexivity|].
  apply (sql_stub_trimmed Sample.pending Fixture.refused "  select 1 ; ").
  reflexivity.
Defined.

End Classifier.

(** *** The poll loop, attempt by attempt *)

Section PollLoop.

Variable w : world.

Lemma poll_skip (st_id : option string) (j n k : nat) :
  (forall i, (i < j)%nat -> exists status,
      get_statement w st_id (k + i) = Ret status /\ Spec.terminal status = false) ->
  poll w st_id (j + n) k = poll w st_id n (k + j).
Proof.
  revert k; induction j as [|j IH]; intros k H.
  - now rewrite Nat.add_0_r.
  - destruct (H 0%nat) as (status & Hg & Ht); [lia|].
    rewrite Nat.add_0_r in Hg. cbn [Nat.add].
    rewrite (poll_continues w _ _ _ _ Hg Ht), IH.
    + f_equal. lia.
    + intros i Hi. destruct (H (S i)) as (st & Hg' & Ht'); [lia|].
      exists st. split; [|exact Ht'].
      now replace (S k + i)%nat with (k + S i)%nat by lia.
Qed.

(** After [j] polls without a terminal status the run stands at poll [j]
    with the rest of its budget. *)
Lemma run_sql_after (sql : string) (wait : Z) (st_id : option string) (j : nat) :
  post_statement w (submission w sql wait) = Ret st_id ->
  (j < Z.to_nat wait)%nat ->
  (forall i, (i < j)%nat -> exists status,
      get_statement w st_id i = Ret status /\ Spec.terminal status = false) ->
  exists n, _run_sql w sql wait = poll w st_id (S n) j.
Proof.
  intros Hp Hj Hi. exists (Z.to_nat wait - S j)%nat.
  unfold _run_sql. rewrite Hp. cbn [bind].
  replace (Z.to_nat wait) with (j + S (Z.to_nat wait - S j))%nat at 1 by lia.
  now rewrite poll_skip.
Qed.

End PollLoop.

(** The first terminal status decides the run.  When it comes within the
    budget and is SUCCEEDED with a result, [_run_sql] returns it, however
    many polls went before; [fetch] then reports the row count of its
    manifest and hands the status back whole, under the id it was given. *)
Theorem first_success_is_returned (w : world) (sql : string) (wait : Z)
    (st_id : option string) (j : nat) (status : status_doc)
    (m : manifest_doc) (rows : Z) :
  post_statement w (submission w sql wait) = Ret st_id ->
  (j < Z.to_nat wait)%nat ->
  (forall i, (i < j)%nat -> exists s,
      get_statement w st_id i = Ret s /\ Spec.terminal s = false) ->
  get_statement w st_id j = Ret status ->
  state status = "SUCCEEDED" -> has_result status = true ->
  _run_sql w sql wait = Ret status
  /\ (wait = default_wait -> manifest status = Some m ->
      total_row_count m = Some rows ->
      fetch w ("query::" ++ sql) =
      Ret (Result ("query::" ++ sql) "SQL query result"
             ("Returned " ++ str_int rows ++ " row(s)") (MStatus status))).
Proof.
  intros Hp Hj Hi Hg Hs Hr.
  assert (E : _run_sql w sql wait = Ret status).
  { destruct (run_sql_after w sql wait st_id j Hp Hj Hi) as (n & ->).
    cbn [poll]. rewrite Hg. cbn [bind]. now rewrite Hs, Hr. }
  split; [exact E|]. intros -> Hm Hn.
  rewrite fetch_query_id. unfold fetch_query. rewrite E. cbn [bind].
  rewrite Hm. cbn [bind]. now rewrite Hn.
Qed.

Lemma first_success_is_returned_witness :
  _run_sql Sample.late_result "SELECT 1" 15 =
    Ret (Sample.status "SUCCEEDED" None (Some 3%Z) (Some Sample.rows3))
  /\ fetch Sample.late_result "query::SELECT 1" =
     Ret (Result "query::SELECT 1" "SQL query result" "Returned 3 row(s)"
            (MStatus (Sample.status "SUCCEEDED" None (Some 3%Z)
                        (Some Sample.rows3)))).
Proof.
  assert (P : forall i, (i < 2)%nat -> exists s,
             get_statement Sample.late_result (Some "stmt-1") i = Ret s
             /\ Spec.terminal s = false).
  { intros i Hi. exists (Sample.status "SUCCEEDED" None (Some 3%Z) None).
    destruct i as [|[|i]]; [split; reflexivity | split; reflexivity | lia]. }
  split.
  - apply (first_success_is_returned Sample.late_result "SELECT 1" 15
             (Some "stmt-1") 2 _ {| total_row_count := Some 3%Z |} 3 eq_refl);
      [cbn; lia | exact P | reflexivity | reflexivity | reflexivity].
  - apply (first_success_is_returned Sample.late_result "SELECT 1" 15
             (Some "stmt-1") 2 _ {| total_row_count := Some 3%Z |} 3 eq_refl);
      [cbn; lia | exact P | reflexivity | reflexivity | reflexivity
       | reflexivity | reflexivity | reflexivity].
Defined.

(** When the first terminal status is FAILED, [_run_sql] raises
    [RuntimeError] at that poll.  Its message is the prefix and the message
    of the remote error; when the status has no "error", or the error no
    "message", it is the prefix and the printed status. *)
Theorem first_failure_is_raised (w : world) (sql : string) (wait : Z)
    (st_id : option string) (j : nat) (status : status_doc) (msg : string) :
  post_statement w (submission w sql wait) = Ret st_id ->
  (j < Z.to_nat wait)%nat ->
  (forall i, (i < j)%nat -> exists s,
      get_statement w st_id i = Ret s /\ Spec.terminal s = false) ->
  get_statement w st_id j = Ret status ->
  state status = "FAILED" ->
  (error status = Some {| message := Some msg |} ->
   _run_sql w sql wait = Raise (RuntimeError ("SQL execution failed: " ++ msg)))
  /\ (error status = None \/ error status = Some {| message := None |} ->
      _run_sql w sql wait =
      Raise (RuntimeError ("SQL execution failed: " ++ str_status w status))).
Proof.
  intros Hp Hj Hi Hg Hs.
  assert (E : _run_sql w sql wait =
              Raise (RuntimeError ("SQL execution failed: " ++ error_msg w status))).
  { destruct (run_sql_after w sql wait st_id j Hp Hj Hi) as (n & ->).
    cbn [poll]. rewrite Hg. cbn [bind]. now rewrite Hs. }
  rewrite E. unfold error_msg. split.
  - now intros ->.
  - now intros [-> | ->].
Qed.

Lemma first_failure_is_raised_witness :
  _run_sql Sample.fails "BAD" 15 =
    Raise (RuntimeError "SQL execution failed: syntax error")
  /\ _run_sql Fixture.fails_late "BAD" 15 =
     Raise (RuntimeError
              "SQL execution failed: {'status': {'state': 'FAILED'}}").
Proof.
  split.
  - apply (first_failure_is_raised Sample.fails "BAD" 15 (Some "stmt-1") 0
             (Sample.status "FAILED" (Some "syntax error") None None)
             "syntax error" eq_refl);
      [cbn; lia | intros i Hi; lia | reflexivity | reflexivity | reflexivity].
  - apply (first_failure_is_raised Fixture.fails_late "BAD" 15 (Some "stmt-1") 2
             (Sample.status "FAILED" None None None) "" eq_refl);
      [cbn; lia | | reflexivity | reflexivity | left; reflexivity].
    intros i Hi. exists (Sample.status "PENDING" None None None).
    destruct i as [|[|i]]; [split; reflexivity | split; reflexivity | lia].
Defined.

(** A request that fails aborts the run with its exception: the
    submission, or a status poll before any terminal status.  [fetch] turns
    it into the error result. *)
Theorem request_error_aborts_run (w : world) (sql : string) (wait : Z)
    (st_id : option string) (j : nat) (exc : exn) :
  (post_statement w (submission w sql wait) = Raise exc
   \/ (post_statement w (submission w sql wait) = Ret st_id
       /\ (j < Z.to_nat wait)%nat
       /\ (forall i, (i < j)%nat -> exists s,
             get_statement w st_id i = Ret s /\ Spec.terminal s = false)
       /\ get_statement w st_id j = Raise exc)) ->
  _run_sql w sql wait = Raise exc
  /\ (wait = default_wait ->
      fetch w ("query::" ++ sql) =
      Ret (Error ("SQL execution failed: " ++ str_exn exc))).
Proof.
  intros H.
  assert (E : _run_sql w sql wait = Raise exc).
  { destruct H as [Hp | (Hp & Hj & Hi & Hg)].
    - unfold _run_sql. now rewrite Hp.
    - destruct (run_sql_after w sql wait st_id j Hp Hj Hi) as (n & ->).
      cbn [poll]. now rewrite Hg. }
  split; [exact E|]. intros ->. rewrite fetch_query_id.
  now apply fetch_query_raise.
Qed.

Lemma request_error_aborts_run_witness :
  fetch Fixture.refused "query::SELECT 1" =
    Ret (Error "SQL execution failed: 403 Forbidden")
  /\ fetch Fixture.poll_breaks "query::SELECT 1" =
     Ret (Error "SQL execution failed: 502 Bad Gateway").
Proof.
  split.
  - apply (request_error_aborts_run Fixture.refused "SELECT 1" 15 None 0
             (RequestException "403 Forbidden"));
      [left; reflexivity | reflexivity].
  - apply (request_error_aborts_run Fixture.poll_breaks "SELECT 1" 15
             (Some "stmt-1") 1 (RequestException "502 Bad Gateway"));
      [right | reflexivity].
    split; [reflexivity|]. split; [cbn; lia|]. split; [|reflexivity].
    intros i Hi. exists (Sample.status "RUNNING" None None None).
    destruct i as [|i]; [split; reflexivity | lia].
Defined.

(** With a wait budget of zero or less the statement is submitted and the
    run times out at once, without a poll. *)
Theorem no_budget_no_poll (w w' : world) (sql : string) (wait : Z)
    (st_id : option string) :
  (wait <= 0)%Z ->
  post_statement w (submission w sql wait) = Ret st_id ->
  post_statement w' (submission w' sql wait) = Ret st_id ->
  _run_sql w sql wait = Raise (TimeoutError "SQL timed out after wait_timeout")
  /\ _run_sql w' sql wait = _run_sql w sql wait.
Proof.
  intros Hw Hp Hp'. unfold _run_sql. rewrite Hp, Hp'. cbn [bind].
  replace (Z.to_nat wait) with 0%nat by lia. split; reflexivity.
Qed.

Lemma no_budget_no_poll_witness :
  _run_sql Sample.succeeds "SELECT 1" 0 =
    Raise (TimeoutError "SQL timed out after wait_timeout")
  /\ _run_sql Sample.fails "SELECT 1" 0 = _run_sql Sample.succeeds "SELECT 1" 0.
Proof.
  apply (no_budget_no_poll Sample.succeeds Sample.fails "SELECT 1" 0
           (Some "stmt-1")); [lia | reflexivity | reflexivity].
Defined.

(** *** What each tool reads of the workspace *)

Section Reads.

Variables w w' : world.

Lemma poll_agrees (st_id : option string) (n k : nat) :
  (forall i, (i < n)%nat ->
     get_statement w st_id (k + i) = get_statement w' st_id (k + i)) ->
  (forall s, str_status w s = str_status w' s) ->
  poll w st_id n k = poll w' st_id n k.
Proof.
  intros Hg Hs. revert k Hg; induction n as [|n IH]; intros k Hg.
  - reflexivity.
  - assert (H0 := Hg 0%nat ltac:(lia)). rewrite Nat.add_0_r in H0.
    cbn [poll]. rewrite <- H0.
    destruct (get_statement w st_id k) as [status|e]; [|reflexivity].
    cbn [bind]. unfold error_msg. rewrite <- Hs, IH; [reflexivity|].
    intros i Hi. replace (S k + i)%nat with (k + S i)%nat by lia.
    apply Hg. lia.
Qed.

Lemma for_each_agrees {A} (l : list A) (f g : A -> M unit) :
  (forall x rs, f x rs = g x rs) -> forall rs, for_each l f rs = for_each l g rs.
Proof.
  intros H. induction l as [|x l IH]; intros rs; cbn [for_each]; [reflexivity|].
  unfold mbind. rewrite H. destruct (g x rs) as [[u|e] rs']; [apply IH|reflexivity].
Qed.

Lemma mbind_agrees {A B} (m m' : M A) (k k' : A -> M B) (rs : list entry) :
  m rs = m' rs -> (forall a rs', k a rs' = k' a rs') ->
  mbind m k rs = mbind m' k' rs.
Proof.
  intros Hm Hk. unfold mbind. rewrite Hm.
  destruct (m' rs) as [[a|e] rs']; [apply Hk|reflexivity].
Qed.

Lemma search_metadata_agrees (qlc : string) (rs : list entry) :
  list_catalogs w = list_catalogs w' ->
  (forall cat, list_schemas w cat = list_schemas w' cat) ->
  (forall cat sch, list_tables w cat sch = list_tables w' cat sch) ->
  search_metadata w qlc rs = search_metadata w' qlc rs.
Proof.
  intros Hc Hs Ht. unfold search_metadata.
  apply mbind_agrees; [unfold call; now rewrite Hc|]. intros cats rs1.
  apply mbind_agrees; [reflexivity|]. intros _ rs2.
  apply for_each_agrees. intros cat rs3.
  apply mbind_agrees; [unfold call; now rewrite Hs|]. intros schs rs4.
  apply for_each_agrees. intros sch rs5.
  apply mbind_agrees; [reflexivity|]. intros _ rs6.
  apply mbind_agrees; [unfold call; now rewrite Ht | reflexivity].
Qed.

End Reads.

(** [search] reads the three listings and nothing else of the workspace:
    two workspaces with the same listings get the same answer, whatever
    their statement services do. *)
Theorem search_reads_listings_only (w w' : world) (query : string) :
  list_catalogs w = list_catalogs w' ->
  (forall cat, list_schemas w cat = list_schemas w' cat) ->
  (forall cat sch, list_tables w cat sch = list_tables w' cat sch) ->
  search w query = search w' query.
Proof.
  intros Hc Hs Ht. unfold search.
  now rewrite (search_metadata_agrees w w' _ _ Hc Hs Ht).
Qed.

Lemma search_reads_listings_only_witness :
  search Sample.succeeds "sales" = search Sample.fails "sales".
Proof.
  apply (search_reads_listings_only Sample.succeeds Sample.fails "sales");
    reflexivity.
Defined.

(** [fetch] of a query id reads the statement service, and of it the
    submission and the first fifteen status polls: it makes no call to the
    metadata client and no sixteenth poll. *)
Theorem fetch_query_reads_statements_only (w w' : world) (rid : string) :
  startswith rid "query::" = true ->
  WAREHOUSE_ID w = WAREHOUSE_ID w' ->
  (forall p, post_statement w p = post_statement w' p) ->
  (forall st_id k, (k < 15)%nat ->
     get_statement w st_id k = get_statement w' st_id k) ->
  (forall s, str_status w s = str_status w' s) ->
  fetch w rid = fetch w' rid.
Proof.
  intros Hq Hw Hp Hg Hs. apply startswith_split in Hq. rewrite Hq.
  rewrite !fetch_query_id. unfold fetch_query, _run_sql, submission.
  rewrite <- Hw, <- Hp.
  destruct (post_statement w _) as [st_id|e]; [|reflexivity].
  cbn [bind]. change (Z.to_nat default_wait) with 15%nat.
  rewrite (poll_agrees w w' st_id 15 0); [reflexivity| |exact Hs].
  intros i Hi. now apply Hg.
Qed.

Lemma fetch_query_reads_statements_only_witness :
  fetch Sample.succeeds "query::SELECT 1" =
  fetch (Sample.flaky Sample.succeeds) "query::SELECT 1".
Proof.
  apply (fetch_query_reads_statements_only Sample.succeeds
           (Sample.flaky Sample.succeeds) "query::SELECT 1");
    reflexivity.
Defined.

(** [fetch] of any other id reads the listings only. *)
Theorem fetch_metadata_reads_listings_only (w w' : world) (rid : string) :
  startswith rid "query::" = false ->
  list_catalogs w = list_catalogs w' ->
  (forall cat, list_schemas w cat = list_schemas w' cat) ->
  (forall cat sch, list_tables w cat sch = list_tables w' cat sch) ->
  fetch w rid = fetch w' rid.
Proof.
  intros Hq Hc Hs Ht. unfold fetch. rewrite Hq.
  destruct (try_except _ _ _) as [[[kind name]|]|e]; try reflexivity.
  unfold fetch_metadata. rewrite <- Hc.
  destruct (kind =? "catalog"); [reflexivity|].
  destruct (kind =? "schema").
  - destruct (unpack2 _) as [[cat sch]|e]; [|reflexivity].
    cbn [bind]. now rewrite <- Hs.
  - destruct (kind =? "table"); [|reflexivity].
    destruct (unpack3 _) as [[[cat sch] tbl]|e]; [|reflexivity].
    cbn [bind]. now rewrite <- Ht.
Qed.

Lemma fetch_metadata_reads_listings_only_witness :
  fetch Sample.succeeds "table::main.sales.orders" =
  fetch Sample.fails "table::main.sales.orders".
Proof.
  apply (fetch_metadata_reads_listings_only Sample.succeeds Sample.fails
           "table::main.sales.orders");
    reflexivity.
Defined.

(** *** Point lookups of [fetch], kind by kind *)

(** A catalog id is looked up by its whole payload, with any [::] or dot
    in it; a schema id is split at its first dot only, so that the schema
    name may contain dots and the catalog name may not.  A failing listing
    call is answered with its message. *)
Theorem catalog_and_schema_lookup (w : world) (name cat sch : string) :
  fetch w ("catalog::" ++ name) =
    match list_catalogs w with
    | Ret cats =>
        match lookup (items cats) name with
        | Some c =>
            Ret (Result ("catalog::" ++ name) ("Catalog: " ++ name)
                   (comment_of c) (MObject c))
        | None => Ret (Error ("Resource '" ++ ("catalog::" ++ name) ++ "' not found"))
        end
    | Raise exc => Ret (Error (str_exn exc))
    end
  /\ (contains "." cat = false ->
      fetch w ("schema::" ++ cat ++ "." ++ sch) =
      match list_schemas w cat with
      | Ret schs =>
          match lookup (items schs) sch with
          | Some s =>
              Ret (Result ("schema::" ++ cat ++ "." ++ sch)
                     ("Schema: " ++ cat ++ "." ++ sch) (comment_of s) (MObject s))
          | None =>
              Ret (Error ("Resource '" ++ ("schema::" ++ cat ++ "." ++ sch)
                          ++ "' not found"))
          end
      | Raise exc => Ret (Error (str_exn exc))
      end).
Proof.
  split; [apply fetch_catalog|]. intros H. exact (fetch_schema w cat sch H).
Qed.

Lemma catalog_and_schema_lookup_witness :
  contains "." "main" = false
  /\ fetch Sample.pending "schema::main.x.y" =
     Ret (Error "Resource 'schema::main.x.y' not found").
Proof.
  split; [reflexivity|].
  apply (proj2 (catalog_and_schema_lookup Sample.pending "" "main" "x.y")).
  reflexivity.
Defined.

(** Round trip from [search] to [fetch]: an object that the client lists is
    fetched under the id that [search] gives it, as long as no dot is in
    the names in front of its own.  The answer carries the title of the
    hit and an object of that name. *)
Theorem listed_objects_are_fetched (w : world) (cat sch : string)
    (l : listing) (o : uc_object) :
  In o (items l) ->
  (list_catalogs w = Ret l ->
   exists o', obj_name o' = obj_name o
     /\ fetch w ("catalog::" ++ obj_name o) =
        Ret (Result ("catalog::" ++ obj_name o) ("Catalog: " ++ obj_name o)
               (comment_of o') (MObject o')))
  /\ (contains "." cat = false -> list_schemas w cat = Ret l ->
      exists o', obj_name o' = obj_name o
        /\ fetch w ("schema::" ++ cat ++ "." ++ obj_name o) =
           Ret (Result ("schema::" ++ cat ++ "." ++ obj_name o)
                  ("Schema: " ++ cat ++ "." ++ obj_name o)
                  (comment_of o') (MObject o')))
  /\ (contains "." cat = false -> contains "." sch = false ->
      list_tables w cat sch = Ret l ->
      exists o', obj_name o' = obj_name o
        /\ fetch w ("table::" ++ cat ++ "." ++ sch ++ "." ++ obj_name o) =
           Ret (Result ("table::" ++ cat ++ "." ++ sch ++ "." ++ obj_name o)
                  ("Table: " ++ cat ++ "." ++ sch ++ "." ++ obj_name o)
                  (comment_of o') (MObject o'))).
Proof.
  intros Ho. destruct (lookup_listed _ _ Ho) as (o' & L & N).
  split; [|split].
  - intros H. exists o'. split; [exact N|]. now rewrite fetch_catalog, H, L.
  - intros Hc H. exists o'. split; [exact N|].
    now rewrite (fetch_schema w cat _ Hc), H, L.
  - intros Hc Hs H. exists o'. split; [exact N|].
    now rewrite (fetch_table w cat sch _ Hc Hs), H, L.
Qed.

Lemma listed_objects_are_fetched_witness :
  In (Sample.obj "a.b") (items (Some [Sample.obj "orders"; Sample.obj "a.b"]))
  /\ exists o', obj_name o' = "a.b"
       /\ fetch Sample.pending "table::main.sales.a.b" =
          Ret (Result "table::main.sales.a.b" "Table: main.sales.a.b"
                 (comment_of o') (MObject o')).
Proof.
  split; [cbn; tauto|].
  apply (proj2 (proj2 (listed_objects_are_fetched Sample.pending "main" "sales"
                         (Some [Sample.obj "orders"; Sample.obj "a.b"])
                         (Sample.obj "a.b") (or_intror (or_introl eq_refl)))));
    reflexivity.
Defined.

(** When a name is listed more than once, [fetch] answers with the first
    object of that name in listing order. *)
Theorem first_listed_object_wins (w : world)
    (before after : list uc_object) (o : uc_object) :
  list_catalogs w = Ret (Some (before ++ o :: after)%list) ->
  (forall x, In x before -> obj_name x <> obj_name o) ->
  fetch w ("catalog::" ++ obj_name o) =
  Ret (Result ("catalog::" ++ obj_name o) ("Catalog: " ++ obj_name o)
         (comment_of o) (MObject o)).
Proof.
  intros H Hb. rewrite fetch_catalog, H.
  cbn [items]. now rewrite (lookup_first before after o Hb).
Qed.

Lemma first_listed_object_wins_witness :
  fetch Fixture.twins "catalog::main" =
  Ret (Result "catalog::main" "Catalog: main" "first"
         (MObject (Fixture.twin "first"))).
Proof.
  apply (first_listed_object_wins Fixture.twins
           [Sample.obj "dev"] [Fixture.twin "second"] (Fixture.twin "first"));
    [reflexivity|].
  intros x [<-|[]]. discriminate.
Defined.

(** With the listing at hand, [fetch] answers not-found exactly when no
    listed object has the name asked for, letter for letter: the lookup is
    case-sensitive, unlike the match of [search]. *)
Theorem not_found_exactly (w : world) (cat sch tbl : string) (l : listing) :
  contains "." cat = false -> contains "." sch = false ->
  list_tables w cat sch = Ret l ->
  (fetch w ("table::" ++ cat ++ "." ++ sch ++ "." ++ tbl) =
   Ret (Error ("Resource '" ++ ("table::" ++ cat ++ "." ++ sch ++ "." ++ tbl)
               ++ "' not found"))
   <-> forall o, In o (items l) -> obj_name o <> tbl).
Proof.
  intros Hc Hs H. rewrite (fetch_table w cat sch tbl Hc Hs), H.
  rewrite <- lookup_none. destruct (lookup (items l) tbl) as [o|].
  - split; discriminate.
  - split; reflexivity.
Qed.

Lemma not_found_exactly_witness :
  fetch Sample.pending "table::main.sales.ORDERS" =
  Ret (Error "Resource 'table::main.sales.ORDERS' not found").
Proof.
  apply (not_found_exactly Sample.pending "main" "sales" "ORDERS"
           (Some [Sample.obj "orders"; Sample.obj "a.b"]));
    [reflexivity | reflexivity | reflexivity |].
  intros o [<-|[<-|[]]]; discriminate.
Defined.

(** A schema id whose payload has no dot, and a table id whose payload has
    fewer than two, make no call: the failed unpacking is answered with
    the message of its [ValueError]. *)
Theorem short_payload_unpack_error (w : world) (name cat rest : string) :
  (contains "." name = false ->
   fetch w ("schema::" ++ name) =
     Ret (Error "not enough values to unpack (expected 2, got 1)")
   /\ fetch w ("table::" ++ name) =
      Ret (Error "not enough values to unpack (expected 3, got 1)"))
  /\ (contains "." cat = false -> contains "." rest = false ->
      fetch w ("table::" ++ cat ++ "." ++ rest) =
      Ret (Error "not enough values to unpack (expected 3, got 2)")).
Proof.
  assert (S1 : forall n, cut "::" ("schema::" ++ n) = Some ("schema", n)).
  { intros n. simpl. now rewrite startswith_nil. }
  assert (T1 : forall n, cut "::" ("table::" ++ n) = Some ("table", n)).
  { intros n. simpl. now rewrite startswith_nil. }
  split.
  - intros H. split.
    + rewrite (fetch_dispatch _ _ _ _ (S1 name)) by discriminate.
      unfold fetch_metadata, split.
      change ("schema" =? "catalog") with false.
      change ("schema" =? "schema") with true. cbv iota.
      now rewrite (cut_none _ _ H).
    + rewrite (fetch_dispatch _ _ _ _ (T1 name)) by discriminate.
      unfold fetch_metadata, split.
      change ("table" =? "catalog") with false.
      change ("table" =? "schema") with false.
      change ("table" =? "table") with true. cbv iota.
      now rewrite (cut_none _ _ H).
  - intros Hc Hr. rewrite (fetch_dispatch _ _ _ _ (T1 _)) by discriminate.
    unfold fetch_metadata, split.
    change ("table" =? "catalog") with false.
    change ("table" =? "schema") with false.
    change ("table" =? "table") with true. cbv iota.
    change ("." ++ rest) with (String "." rest).
    now rewrite (cut_dot _ _ Hc), (cut_none _ _ Hr).
Qed.

Lemma short_payload_unpack_error_witness :
  (fetch Fixture.refused "schema::main" =
     Ret (Error "not enough values to unpack (expected 2, got 1)")
   /\ fetch Fixture.refused "table::main" =
      Ret (Error "not enough values to unpack (expected 3, got 1)"))
  /\ fetch Fixture.refused "table::main.sales" =
     Ret (Error "not enough values to unpack (expected 3, got 2)").
Proof.
  split.
  - apply (proj1 (short_payload_unpack_error Fixture.refused "main" "" "")).
    reflexivity.
  - apply (proj2 (short_payload_unpack_error Fixture.refused "" "main" "sales"));
      reflexivity.
Defined.

(** *** What a metadata search returns *)

Section Hits.

Variable w : world.
Variable query : string.

(** The shape of a hit: an id and a title over the same fully-qualified
    name, which matches the query. *)
Lemma expected_order_sound (e : entry) :
  In e (Spec.expected_order w query) ->
  exists fq o,
    Spec.matches query fq = true
    /\ (e = Result ("catalog::" ++ fq) ("Catalog: " ++ fq) (comment_of o) (MObject o)
        \/ e = Result ("schema::" ++ fq) ("Schema: " ++ fq) (comment_of o) (MObject o)
        \/ e = Result ("table::" ++ fq) ("Table: " ++ fq) (comment_of o) (MObject o)).
Proof.
  unfold Spec.expected_order. intros H. apply in_app_or in H as [H|H].
  - apply in_map_iff in H as (c & <- & H). apply filter_In in H as [_ H].
    exists (obj_name c), c. split; [exact H|]. now left.
  - apply in_flat_map in H as (cat & _ & H). unfold Spec.catalog_block in H.
    apply in_flat_map in H as (sch & _ & H). unfold Spec.schema_block in H.
    apply in_app_or in H as [H|H].
    + destruct (Spec.matches query (Spec.fq_schema cat sch)) eqn:E;
        [|contradiction].
      destruct H as [<-|[]]. exists (Spec.fq_schema cat sch), sch.
      split; [exact E|]. right. now left.
    + apply in_map_iff in H as (t & <- & H). apply filter_In in H as [_ H].
      exists (Spec.fq_table cat sch t), t. split; [exact H|]. right. now right.
Qed.

Lemma expected_order_complete (cat sch tbl : uc_object) :
  In cat (Spec.listed (list_catalogs w)) ->
  In sch (Spec.listed (list_schemas w (obj_name cat))) ->
  In tbl (Spec.listed (list_tables w (obj_name cat) (obj_name sch))) ->
  Spec.matches query (Spec.fq_table cat sch tbl) = true ->
  In (table_hit (Spec.fq_table cat sch tbl) tbl) (Spec.expected_order w query).
Proof.
  intros Hc Hs Ht Hm. unfold Spec.expected_order. apply in_or_app. right.
  apply in_flat_map. exists cat. split; [exact Hc|].
  apply in_flat_map. exists sch. split; [exact Hs|].
  unfold Spec.schema_block. apply in_or_app. right.
  apply in_map_iff. exists tbl. split; [reflexivity|].
  apply filter_In. now split.
Qed.

End Hits.

(** Soundness of the metadata search: every result that is not the error
    entry is a catalog, schema or table hit whose id and title carry one
    fully-qualified name, and that name contains the query when both are
    lower-cased. *)
Theorem search_hits_match (w : world) (query : string) (results : list entry)
    (id title text : string) (md : metadata) :
  _is_sql query = false ->
  search w query = Ret results ->
  In (Result id title text md) results ->
  exists fq o,
    contains (lower query) (lower fq) = true
    /\ md = MObject o /\ text = comment_of o
    /\ ((id = "catalog::" ++ fq /\ title = "Catalog: " ++ fq)
        \/ (id = "schema::" ++ fq /\ title = "Schema: " ++ fq)
        \/ (id = "table::" ++ fq /\ title = "Table: " ++ fq)).
Proof.
  intros Hq Hs Hi.
  destruct (search_metadata_path w query Hq) as (hits & rest & P & D).
  assert (Hh : In (Result id title text md) hits).
  { destruct D as [[S' _]|(e & S' & _)]; rewrite S' in Hs; inversion Hs; subst.
    - exact Hi.
    - apply in_app_or in Hi as [Hi|[Hi|[]]]; [exact Hi|discriminate]. }
  assert (He : In (Result id title text md) (Spec.expected_order w query)).
  { rewrite P. apply in_or_app. now left. }
  destruct (expected_order_sound w query _ He) as (fq & o & M & [E|[E|E]]);
    inversion E; subst; exists fq, o; repeat split; auto.
Qed.

Lemma search_hits_match_witness :
  exists fq o,
    contains (lower "SALES") (lower fq) = true
    /\ MObject (Sample.obj "orders") = MObject o /\ "" = comment_of o
    /\ (("table::main.sales.orders" = "catalog::" ++ fq
         /\ "Table: main.sales.orders" = "Catalog: " ++ fq)
        \/ ("table::main.sales.orders" = "schema::" ++ fq
            /\ "Table: main.sales.orders" = "Schema: " ++ fq)
        \/ ("table::main.sales.orders" = "table::" ++ fq
            /\ "Table: main.sales.orders" = "Table: " ++ fq)).
Proof.
  apply (search_hits_match Sample.pending "SALES"
           [schema_hit "main.sales" (Sample.obj "sales");
            table_hit "main.sales.orders" (Sample.obj "orders");
            table_hit "main.sales.a.b" (Sample.obj "a.b")]
           "table::main.sales.orders" "Table: main.sales.orders" ""
           (MObject (Sample.obj "orders")));
    [reflexivity | reflexivity | cbn; tauto].
Defined.

(** Completeness of the metadata search: when every listing call
    succeeds, each listed table whose fully-qualified name contains the
    query, both lower-cased, is among the results. *)
Theorem matching_tables_are_found (w : world) (query : string)
    (cats schs tbls : listing) (cat sch tbl : uc_object) :
  _is_sql query = false ->
  Spec.all_listed w = true ->
  list_catalogs w = Ret cats -> In cat (items cats) ->
  list_schemas w (obj_name cat) = Ret schs -> In sch (items schs) ->
  list_tables w (obj_name cat) (obj_name sch) = Ret tbls -> In tbl (items tbls) ->
  contains (lower query)
    (lower ((obj_name cat ++ "." ++ obj_name sch) ++ "." ++ obj_name tbl)) = true ->
  exists results,
    search w query = Ret results
    /\ In (Result ("table::" ++ (obj_name cat ++ "." ++ obj_name sch)
                   ++ "." ++ obj_name tbl)
                  ("Table: " ++ (obj_name cat ++ "." ++ obj_name sch)
                   ++ "." ++ obj_name tbl)
                  (comment_of tbl) (MObject tbl)) results.
Proof.
  intros Hq Hok Hc Ic Hs Is Ht It Hm.
  exists (Spec.expected_order w query).
  split; [now apply search_all_listed|].
  apply (expected_order_complete w query cat sch tbl); unfold Spec.listed.
  - now rewrite Hc.
  - now rewrite Hs.
  - now rewrite Ht.
  - exact Hm.
Qed.

Lemma matching_tables_are_found_witness :
  exists results,
    search Sample.pending "SALES" = Ret results
    /\ In (Result "table::main.sales.a.b" "Table: main.sales.a.b" ""
             (MObject (Sample.obj "a.b"))) results.
Proof.
  apply (matching_tables_are_found Sample.pending "SALES"
           (Some [Sample.obj "main"; Sample.obj "dev"])
           (Some [Sample.obj "sales"; Sample.obj "hr"])
           (Some [Sample.obj "orders"; Sample.obj "a.b"])
           (Sample.obj "main") (Sample.obj "sales") (Sample.obj "a.b"));
    try reflexivity; cbn; tauto.
Defined.

Section CatalogPass.

Variable w : world.

Lemma search_metadata_listed (cats : listing) (qlc : string) (rs : list entry) :
  list_catalogs w = Ret cats ->
  search_metadata w qlc rs =
  mbind
    (for_each (items cats) (fun cat =>
       when (contains qlc (lower (obj_name cat))) (append (catalog_hit cat))))
    (fun _ =>
       for_each (items cats) (fun cat =>
         mbind (call (list_schemas w (obj_name cat))) (fun schs =>
           for_each (items schs) (fun sch =>
             let fq := obj_name cat ++ "." ++ obj_name sch in
             mbind (when (contains qlc (lower fq)) (append (schema_hit fq sch)))
               (fun _ =>
                mbind (call (list_tables w (obj_name cat) (obj_name sch)))
                  (fun tbls =>
                   for_each (items tbls) (fun tbl =>
                     let fqt := fq ++ "." ++ obj_name tbl in
                     when (contains qlc (lower fqt))
                       (append (table_hit fqt tbl))))))))) rs.
Proof. intros H. unfold search_metadata. rewrite H. reflexivity. Qed.

Lemma catalog_pass (l : list uc_object) (qlc : string) (rs : list entry) :
  for_each l (fun cat =>
    when (contains qlc (lower (obj_name cat))) (append (catalog_hit cat))) rs =
  (Ret tt,
   (rs ++ map catalog_hit
            (filter (fun cat => contains qlc (lower (obj_name cat))) l))%list).
Proof.
  revert rs; induction l as [|c l IH]; intros rs; cbn [for_each filter map].
  - unfold mret. now rewrite app_nil_r.
  - unfold mbind. destruct (contains qlc (lower (obj_name c))); cbn [when].
    + unfold append. rewrite IH. cbn [map]. now rewrite <- app_assoc.
    + unfold mret. apply IH.
Qed.

End CatalogPass.

(** The catalogs are matched before any schema is listed: when the catalog
    listing succeeds, every matching catalog is in the results, whatever
    happens to the schema and table listings afterwards. *)
Theorem matching_catalogs_always_reported (w : world) (query : string)
    (cats : listing) :
  _is_sql query = false ->
  list_catalogs w = Ret cats ->
  exists tail,
    search w query =
    Ret (map catalog_hit
           (filter (fun cat => contains (lower query) (lower (obj_name cat)))
              (items cats)) ++ tail)%list.
Proof.
  intros Hq Hc. unfold search. rewrite Hq.
  rewrite (search_metadata_listed w cats _ _ Hc). unfold mbind at 1.
  rewrite catalog_pass. cbn [app].
  match goal with
  | |- context [for_each (items cats) ?body ?rs] =>
      destruct (yields_for_each (items cats) body
                  (Spec.schemas_listed w) (Spec.catalog_block w query)
                  (catalog_yields w query) rs)
        as (o & out & E & _)
  end.
  rewrite E. destruct o as [u|e].
  - now exists out.
  - exists (out ++ [Error (str_exn e)])%list. destruct e; now rewrite app_assoc.
Qed.

Lemma matching_catalogs_always_reported_witness :
  exists tail,
    search (Sample.flaky Sample.pending) "main" =
    Ret (map catalog_hit
           (filter (fun cat => contains (lower "main") (lower (obj_name cat)))
              (items (Some [Sample.obj "main"; Sample.obj "dev"]))) ++ tail)%list.
Proof.
  apply (matching_catalogs_always_reported (Sample.flaky Sample.pending) "main"
           (Some [Sample.obj "main"; Sample.obj "dev"]));
    reflexivity.
Defined.

(** Without a catalog listing there is nothing to search: when the call
    fails, the result is the one error entry with its message; when the
    answer has no catalogs, or no "catalogs" key, the result is empty. *)
Theorem search_without_catalogs (w : world) (query : string) (exc : exn)
    (cats : listing) :
  _is_sql query = false ->
  (list_catalogs w = Raise exc -> search w query = Ret [Error (str_exn exc)])
  /\ (list_catalogs w = Ret cats -> items cats = [] -> search w query = Ret []).
Proof.
  intros Hq. unfold search. rewrite Hq. split.
  - intros H. unfold search_metadata, mbind, call. rewrite H. now destruct exc.
  - intros H E. rewrite (search_metadata_listed w cats _ _ H), E. reflexivity.
Qed.

Lemma search_without_catalogs_witness :
  search Fixture.refused "sales" = Ret [Error "503 Server Error"]
  /\ search Fixture.no_key "sales" = Ret [].
Proof.
  split.
  - apply (proj1 (search_without_catalogs Fixture.refused "sales"
                    (RequestException "503 Server Error") None eq_refl)).
    reflexivity.
  - apply (proj2 (search_without_catalogs Fixture.no_key "sales"
                    (KeyError "") None eq_refl));
      reflexivity.
Defined.

(** *** Start-up and requests *)

(** The module gets past its configuration check exactly when the logging
    set-up returns and the three variables are set to non-empty strings,
    and then holds their values.  An exception of the logging set-up comes
    first, whatever the variables are; after it a variable that is unset
    or set to the empty string stops the module with the [RuntimeError]. *)
Theorem load_needs_all_three (configure_logging : string -> outcome unit)
    (getenv : Startup.environ) (s : Startup.settings) (exc : exn) :
  let raw_level := match getenv "LOG_LEVEL" with
                   | Some v => v
                   | None => "DEBUG"
                   end in
  (Startup.load configure_logging getenv = Ret s <->
   configure_logging raw_level = Ret tt
   /\ getenv "DATABRICKS_WORKSPACE_URL" = Some (Startup.WORKSPACE_URL s)
   /\ getenv "DATABRICKS_TOKEN" = Some (Startup.ACCESS_TOKEN s)
   /\ getenv "DATABRICKS_WAREHOUSE_ID" = Some (Startup.WAREHOUSE_ID s)
   /\ Startup.WORKSPACE_URL s <> "" /\ Startup.ACCESS_TOKEN s <> ""
   /\ Startup.WAREHOUSE_ID s <> "")
  /\ (configure_logging raw_level = Raise exc ->
      Startup.load configure_logging getenv = Raise exc)
  /\ (configure_logging raw_level = Ret tt ->
      (exists s', Startup.load configure_logging getenv = Ret s')
      \/ Startup.load configure_logging getenv =
         Raise (RuntimeError
           "Set DATABRICKS_WORKSPACE_URL, DATABRICKS_TOKEN and DATABRICKS_WAREHOUSE_ID")).
Proof.
  intros raw_level. unfold Startup.load. fold raw_level.
  destruct (configure_logging raw_level) as [[]|e]; cbn [bind].
  2:{ split; [split; [discriminate | intros (A & _); discriminate]|].
      split; [intros A; now inversion A | discriminate]. }
  unfold Startup.is_set.
  destruct (getenv "DATABRICKS_WORKSPACE_URL") as [u|];
    destruct (getenv "DATABRICKS_TOKEN") as [t|];
    destruct (getenv "DATABRICKS_WAREHOUSE_ID") as [h|];
    [ | match goal with
         | |- context [if ?b then _ else _] => destruct b
         end;
         (split; [split; [discriminate | intros (_ & A & B & C & _); congruence]
                | split; [discriminate | now right]]) .. ].
  destruct (u =? "") eqn:Eu; cbn [negb andb].
  { apply String.eqb_eq in Eu. subst u.
    split; [|split; [discriminate | now right]].
    split; [discriminate|]. intros (_ & A & _ & _ & N & _). inversion A. congruence. }
  destruct (t =? "") eqn:Et; cbn [negb andb].
  { apply String.eqb_eq in Et. subst t.
    split; [|split; [discriminate | now right]].
    split; [discriminate|]. intros (_ & _ & A & _ & _ & N & _). inversion A. congruence. }
  destruct (h =? "") eqn:Eh; cbn [negb andb].
  { apply String.eqb_eq in Eh. subst h.
    split; [|split; [discriminate | now right]].
    split; [discriminate|]. intros (_ & _ & _ & A & _ & _ & N). inversion A. congruence. }
  apply String.eqb_neq in Eu, Et, Eh.
  split; [|split; [discriminate | left; eauto]]. split.
  - intros H. inversion H. cbn. repeat split; auto.
  - intros (_ & A & B & C & _). destruct s as [u' t' h']. cbn in A, B, C.
    inversion A. inversion B. inversion C. reflexivity.
Qed.

Lemma load_needs_all_three_witness :
  Startup.load Fixture.configure_logging Fixture.getenv = Ret Fixture.settings
  /\ Startup.load Fixture.configure_logging Fixture.getenv_bogus_level =
     Raise (ValueError "Unknown level: 'BOGUS'")
  /\ ((exists s', Startup.load Fixture.configure_logging
                    Fixture.getenv_empty_token = Ret s')
      \/ Startup.load Fixture.configure_logging Fixture.getenv_empty_token =
         Raise (RuntimeError
           "Set DATABRICKS_WORKSPACE_URL, DATABRICKS_TOKEN and DATABRICKS_WAREHOUSE_ID")).
Proof.
  split; [|split].
  - apply (proj1 (load_needs_all_three Fixture.configure_logging Fixture.getenv
                    Fixture.settings (KeyError ""))).
    repeat split; discriminate.
  - apply (proj1 (proj2 (load_needs_all_three Fixture.configure_logging
                           Fixture.getenv_bogus_level Fixture.settings
                           (ValueError "Unknown level: 'BOGUS'")))).
    reflexivity.
  - apply (proj2 (proj2 (load_needs_all_three Fixture.configure_logging
                           Fixture.getenv_empty_token Fixture.settings
                           (KeyError "")))).
    reflexivity.
Defined.

(** The helpers put the names into the query string as they are.  Two
    different catalog and schema pairs can make one and the same request;
    they cannot when the catalog names are free of "&". *)
Theorem tables_request_not_escaped (s : Startup.settings)
    (a b c cat1 sch1 cat2 sch2 : string) :
  (forall http,
     Startup.list_tables http s a (b ++ "&schema_name=" ++ c) =
     Startup.list_tables http s (a ++ "&schema_name=" ++ b) c)
  /\ (contains "&" cat1 = false -> contains "&" cat2 = false ->
      (forall http,
         Startup.list_tables http s cat1 sch1 =
         Startup.list_tables http s cat2 sch2) ->
      cat1 = cat2 /\ sch1 = sch2).
Proof.
  split.
  - intros http. unfold Startup.list_tables, Startup._get. do 3 f_equal.
    now rewrite !append_assoc.
  - intros H1 H2 H. specialize (H Fixture.echo).
    unfold Startup.list_tables, Startup._get, Fixture.echo in H.
    cbn [Startup.url] in H. inversion H as [E].
    apply append_inv_head in E.
    apply (append_inv_head "/api/2.1/unity-catalog/tables?catalog_name="
             (cat1 ++ String "&" ("schema_name=" ++ sch1))
             (cat2 ++ String "&" ("schema_name=" ++ sch2))) in E.
    assert (C : cut "&" (cat1 ++ String "&" ("schema_name=" ++ sch1)) =
                cut "&" (cat2 ++ String "&" ("schema_name=" ++ sch2)))
      by now rewrite E.
    rewrite (cut_char _ _ _ H1), (cut_char _ _ _ H2) in C.
    inversion C as [[Ec Es]]. now split.
Qed.

Lemma tables_request_not_escaped_witness :
  contains "&" "main" = false /\ "main" = "main" /\ "sales" = "sales".
Proof.
  split; [reflexivity|].
  apply (proj2 (tables_request_not_escaped Fixture.settings "" "" ""
                  "main" "sales" "main" "sales"));
    reflexivity.
Defined.
